(** * Access-policy generator of the schema plugin (policy-generator)

    A shallow embedding of [PolicyGenerator]: the class that walks the data
    models of a resolved schema and writes [policy.ts], the object holding the
    model-level and field-level guards, the create input checkers, the
    permission checkers, the pre-update selectors and the auth selector.

    The generator is imperative: it threads a [CodeBlockWriter] and a ts-morph
    [SourceFile] through every method and may throw.  It is modelled in a
    state-and-exception monad [Gen] whose state holds both objects. *)

From Stdlib Require Import String Ascii List Bool Arith Lia.
Import ListNotations.
Set Warnings "-register-all".
Open Scope string_scope.
Open Scope list_scope.

Infix "+++" := String.append (at level 60, right associativity).

(* ================================================================= *)
(** ** Strings *)

(** [Array.prototype.join]. *)
Definition join (sep : string) (parts : list string) : string :=
  String.concat sep parts.

(** JavaScript truthiness of a string. *)
Definition nonEmpty (s : string) : bool :=
  match s with
  | EmptyString => false
  | String _ _ => true
  end.

(** Truthiness of a [string | undefined] value: the value when it is truthy. *)
Definition whenTruthy (v : option string) : option string :=
  match v with
  | Some s => if nonEmpty s then Some s else None
  | None => None
  end.

Definition lowerAscii (c : ascii) : ascii :=
  let n := nat_of_ascii c in
  if (Nat.leb 65 n && Nat.leb n 90)%bool then ascii_of_nat (n + 32) else c.

Fixpoint toLowerCase (s : string) : string :=
  match s with
  | EmptyString => EmptyString
  | String c rest => String (lowerAscii c) (toLowerCase rest)
  end.

(** [lowerCaseFirst] of the lower-case-first package. *)
Definition lowerCaseFirst (s : string) : string :=
  match s with
  | EmptyString => EmptyString
  | String c rest => String (lowerAscii c) rest
  end.

(** Template interpolation of a boolean. *)
Definition boolText (b : bool) : string := if b then "true" else "false".

Definition dquote : string := String (ascii_of_nat 34) EmptyString.

(* ================================================================= *)
(** ** The schema AST *)

Inductive PolicyKind := Allow | Deny.

Inductive PolicyOperationKind := Read | Create | Update | PostUpdate | Delete.

Definition isUpdate (k : PolicyOperationKind) : bool :=
  match k with Update => true | _ => false end.

Definition isPostUpdate (k : PolicyOperationKind) : bool :=
  match k with PostUpdate => true | _ => false end.

Definition kindText (k : PolicyOperationKind) : string :=
  match k with
  | Read => "read"
  | Create => "create"
  | Update => "update"
  | PostUpdate => "postUpdate"
  | Delete => "delete"
  end.

(** The declaration behind [$resolvedType?.decl]. *)
Inductive TypeDecl :=
| DataModelDecl (name : string)
| EnumDecl (name : string).

Definition isDataModel (d : option TypeDecl) : bool :=
  match d with
  | Some (DataModelDecl _) => true
  | _ => false
  end.

(** A linked data model field is identified by its container and its own name;
    model names are unique in a schema, so [$container === model] is the
    comparison of the container name with [model.name]. *)
Record FieldRef := { refContainer : string; refName : string }.

(** What [target.ref] of a reference expression resolves to. *)
Inductive RefTarget :=
| DataModelFieldTarget (f : FieldRef)
| OtherTarget (name : string).

Inductive Expression :=
| LiteralExpr (text : string)
| NullExpr
| ThisExpr
| ReferenceExpr (target : RefTarget) (resolvedDecl : option TypeDecl)
| MemberAccessExpr (operand : Expression) (member : string)
| InvocationExpr (function : string) (args : list Expression)
| UnaryExpr (operator : string) (operand : Expression)
| BinaryExpr (operator : string) (left right : Expression)
| ArrayExpr (items : list Expression).

Definition isThisExpr (e : Expression) : bool :=
  match e with ThisExpr => true | _ => false end.

(** [streamAst] of langium: the node itself, then every node it contains, in
    document order. *)
Fixpoint streamAst (e : Expression) : list Expression :=
  e :: match e with
       | MemberAccessExpr operand _ => streamAst operand
       | InvocationExpr _ args => flat_map streamAst args
       | UnaryExpr _ operand => streamAst operand
       | BinaryExpr _ l r => streamAst l ++ streamAst r
       | ArrayExpr items => flat_map streamAst items
       | _ => []
       end.

Record AttributeArg := { argValue : Expression }.

Record Attribute := {
  declRefText : string;          (* attr.decl.$refText *)
  attrArgs : list AttributeArg   (* attr.args *)
}.

(** A field does not point back to its model here: where the source reads
    [field.$container], the embedding passes the model along with the field. *)
Record DataModelField := {
  fieldName : string;
  fieldAttributes : list Attribute
}.

Record DataModel := {
  modelName : string;
  modelFields : list DataModelField;
  modelAttributes : list Attribute
}.

Inductive Declaration :=
| DataModelDeclaration (m : DataModel)
| EnumDeclaration (name : string)
| OtherDeclaration.

(** The schema root. *)
Record Model := { declarations : list Declaration }.

(** The subject of [getPolicyExpressions]. *)
Inductive PolicyTarget :=
| OfModel (m : DataModel)
| OfField (f : DataModelField).

(** [PolicyAnalysisResult]: a constant boolean per operation kind, or nothing
    when the policy needs evaluation. *)
Definition PolicyAnalysisResult := PolicyOperationKind -> option bool.

(* ================================================================= *)
(** ** Plugin options *)

Inductive OptionValue :=
| OptBool (b : bool)
| OptString (s : string).

Definition truthyOption (v : option OptionValue) : bool :=
  match v with
  | Some (OptBool b) => b
  | Some (OptString s) => nonEmpty s
  | None => false
  end.

(** [v === true]. *)
Definition isExactlyTrue (v : option OptionValue) : bool :=
  match v with
  | Some (OptBool true) => true
  | _ => false
  end.

Record PluginOptions := {
  generatePermissionChecker : option OptionValue;
  preserveTsFiles : option OptionValue;
  output : option OptionValue
}.

(* ================================================================= *)
(** ** Select shapes *)

(** A select object: each key maps to [true] or to a nested select. *)
Inductive SelectShape :=
| SelTrue
| SelNested (entries : list (string * SelectShape)).

(** [JSON.stringify] on a select object. *)
Fixpoint stringifyShape (s : SelectShape) : string :=
  match s with
  | SelTrue => "true"
  | SelNested entries =>
      "{" +++ join "," (map (fun kv => dquote +++ fst kv +++ dquote +++ ":"
                                         +++ stringifyShape (snd kv)) entries)
          +++ "}"
  end.

Definition JSON_stringify (entries : list (string * SelectShape)) : string :=
  stringifyShape (SelNested entries).

(* ================================================================= *)
(** ** Generated code *)

(** The structure handed to [sourceFile.addFunction]; a statement given as a
    writer function is held as the text that function writes. *)
Record FunctionDeclaration := {
  fnName : string;
  fnReturnType : string;
  fnParameters : list (string * string);
  fnStatements : list string
}.

(** The calls received by a [CodeBlockWriter]. *)
Inductive WriterOp :=
| Write (text : string)
| WriteLine (text : string)
| Block (body : list WriterOp)
| InlineBlock (body : list WriterOp).

Inductive Statement :=
| RawStatement (text : string)
| ImportDeclaration (namedImports : list string) (moduleSpecifier : string)
| VariableStatement (declarationKind name type : string)
                    (initializer : list WriterOp)
| FunctionStatement (f : FunctionDeclaration).

Definition SourceFile := list Statement.

(** A plain object used as a string-keyed record: assigning an existing key
    keeps its place, a new key goes last ([Object.keys] lists keys in insertion
    order; field names are identifiers, never array indices). *)
Definition StringRecord := list (string * string).

Fixpoint recordSet (key value : string) (r : StringRecord) : StringRecord :=
  match r with
  | [] => [(key, value)]
  | (k, v) :: rest =>
      if String.eqb k key then (k, value) :: rest
      else (k, v) :: recordSet key value rest
  end.

Definition recordKeys (r : StringRecord) : list string := map fst r.

(* ================================================================= *)
(** ** Functions imported from the sdk, the runtime and [./utils] *)

(** The helpers the generator imports and whose code lives in other files.
    They are taken as they are called, and as functions that return: an
    exception raised inside one of them (the transformer refusing an
    expression, a missing auth model) aborts the generation from outside this
    file and is not part of the embedding, whose only exception is the one
    this file throws itself.  [transform] is
    [TypeScriptExpressionTransformer.transform] configured with the
    access-policy context and field references read from [input];
    [transformRules] is [ConstraintTransformer.transformRules] with the auth
    accessor [user]; [generateNormalizedAuthRef] gives the statements it pushes;
    [queryGuard] gives the function that [generateQueryGuardFunction] adds to
    the source file. *)
Record Sdk := {
  RUNTIME_PACKAGE : string;
  getDataModels : Model -> list DataModel;
  getPolicyExpressions :
    PolicyTarget -> PolicyKind -> PolicyOperationKind -> bool -> list Expression;
  analyzePolicies : DataModel -> PolicyAnalysisResult;
  hasAttribute : FieldRef -> string -> bool;
  hasValidationAttributes : DataModel -> bool;
  isAuthInvocation : Expression -> bool;
  isForeignKeyField : FieldRef -> bool;
  isEnumReferenced : Model -> string -> bool;
  getPrismaClientImportSpec : string -> PluginOptions -> string;
  path_join : string -> string -> string;
  transform : Expression -> string;
  transformRules : list Expression -> list Expression -> string;
  generateNormalizedAuthRef :
    DataModel -> list Expression -> list Expression -> list string;
  queryGuard :
    DataModel -> PolicyOperationKind -> list Expression -> list Expression ->
    option DataModelField -> bool -> FunctionDeclaration
}.

(* ================================================================= *)
(** ** The generation monad *)

Inductive Result (A : Type) :=
| Ok (value : A)
| Throw (message : string).
Arguments Ok {A} value.
Arguments Throw {A} message.

Record GenState := {
  writer : list WriterOp;
  sourceFile : SourceFile
}.

Definition Gen (A : Type) : Type := GenState -> Result (A * GenState).

Definition ret {A} (a : A) : Gen A := fun st => Ok (a, st).

Definition bind {A B} (m : Gen A) (k : A -> Gen B) : Gen B :=
  fun st =>
    match m st with
    | Ok (a, st') => k a st'
    | Throw msg => Throw msg
    end.

Definition throw {A} (msg : string) : Gen A := fun _ => Throw msg.

Notation "x <- m ;; k" := (bind m (fun x => k))
  (at level 61, m at next level, right associativity).
Notation "m ;; k" := (bind m (fun _ => k))
  (at level 61, right associativity).

Definition emit (op : WriterOp) : Gen unit :=
  fun st => Ok (tt, {| writer := writer st ++ [op]; sourceFile := sourceFile st |}).

Definition write (text : string) : Gen unit := emit (Write text).
Definition writeLine (text : string) : Gen unit := emit (WriteLine text).

(** [writer.block(() => body)] and [writer.inlineBlock(() => body)]: the body
    runs at once, against the same source file, and what it writes lands
    inside the braces. *)
Definition nested (wrap : list WriterOp -> WriterOp) (body : Gen unit) : Gen unit :=
  fun st =>
    match body {| writer := []; sourceFile := sourceFile st |} with
    | Ok (_, st') =>
        Ok (tt, {| writer := writer st ++ [wrap (writer st')];
                   sourceFile := sourceFile st' |})
    | Throw msg => Throw msg
    end.

Definition block (body : Gen unit) : Gen unit := nested Block body.
Definition inlineBlock (body : Gen unit) : Gen unit := nested InlineBlock body.

(** [sourceFile.addFunction(structure)]: the function is appended and handed
    back. *)
Definition addFunction (f : FunctionDeclaration) : Gen FunctionDeclaration :=
  fun st => Ok (f, {| writer := writer st; sourceFile := sourceFile st ++ [FunctionStatement f] |}).

Definition addStatement (s : Statement) : Gen unit :=
  fun st => Ok (tt, {| writer := writer st; sourceFile := sourceFile st ++ [s] |}).

(** A statement given as a writer function is run when the function is
    printed; an exception it raises leaves [addFunction]. *)
Definition liftResult {A} (r : Result A) : Gen A :=
  fun st => match r with Ok a => Ok (a, st) | Throw msg => Throw msg end.

(** [for (const x of xs)] over a loop state. *)
Fixpoint forOf {A S} (xs : list A) (body : S -> A -> Gen S) (s : S) : Gen S :=
  match xs with
  | [] => ret s
  | x :: rest => s' <- body s x ;; forOf rest body s'
  end.

(** [xs.forEach(x => ...)] with no loop state. *)
Fixpoint forEach {A} (xs : list A) (body : A -> Gen unit) : Gen unit :=
  match xs with
  | [] => ret tt
  | x :: rest => body x ;; forEach rest body
  end.

(* ================================================================= *)
(** ** The generator *)

Section PolicyGenerator.

Variable options : PluginOptions.
Variable sdk : Sdk.

Definition isEmpty {A} (xs : list A) : bool := Nat.eqb (length xs) 0.

(* ----------------------------------------------------------------- *)
(** *** Selectors *)

(** Key comparison of the select merge: the auth selector merges its keys
    without regard to case. *)
Definition sameKey (forAuthContext : bool) (a b : string) : bool :=
  if forAuthContext then String.eqb (toLowerCase a) (toLowerCase b)
  else String.eqb a b.

(** Modelled from the spec: the selection path of a reference node inside
    [generateSelectForRules] ([./utils] is not among the sources).  A field
    reference selects the field, a member access extends the path of its
    operand, and in the auth context a member access on [auth()] selects that
    member of the auth principal. *)
Fixpoint visit (forAuthContext : bool) (node : Expression) : option (list string) :=
  match node with
  | ThisExpr => Some []
  | ReferenceExpr (DataModelFieldTarget f) _ => Some [refName f]
  | MemberAccessExpr operand member =>
      if forAuthContext && isAuthInvocation sdk operand then Some [member]
      else match visit forAuthContext operand with
           | Some inner => Some (inner ++ [member])
           | None => None
           end
  | _ => None
  end.

(** Modelled from the spec: the walk of [generateSelectForRules] over the
    reference nodes of one rule expression. *)
Fixpoint collectReferencePaths (forAuthContext : bool) (expr : Expression)
  : list (list string) :=
  match visit forAuthContext expr with
  | Some path => [path]
  | None =>
      match expr with
      | MemberAccessExpr operand _ => collectReferencePaths forAuthContext operand
      | InvocationExpr _ args => flat_map (collectReferencePaths forAuthContext) args
      | UnaryExpr _ operand => collectReferencePaths forAuthContext operand
      | BinaryExpr _ l r =>
          collectReferencePaths forAuthContext l ++ collectReferencePaths forAuthContext r
      | ArrayExpr items => flat_map (collectReferencePaths forAuthContext) items
      | _ => []
      end
  end.

Fixpoint upsert (eqk : string -> string -> bool) (key : string)
  (f : option SelectShape -> SelectShape) (entries : list (string * SelectShape))
  : list (string * SelectShape) :=
  match entries with
  | [] => [(key, f None)]
  | (k, v) :: rest =>
      if eqk k key then (k, f (Some v)) :: rest
      else (k, v) :: upsert eqk key f rest
  end.

(** Modelled from the spec: the recursive union of one selection path into a
    select shape (a key present in either is present in the result). *)
Fixpoint addPath (eqk : string -> string -> bool) (path : list string)
  (shape : list (string * SelectShape)) : list (string * SelectShape) :=
  match path with
  | [] => shape
  | seg :: rest =>
      upsert eqk seg
        (fun old =>
           match rest with
           | [] => match old with Some s => s | None => SelTrue end
           | _ =>
               SelNested (addPath eqk rest
                            match old with
                            | Some (SelNested inner) => inner
                            | _ => []
                            end)
           end)
        shape
  end.

(** Modelled from the spec: [generateSelectForRules(rules, forAuthContext)] of
    [./utils], which is not among the sources.  The select shape is the union
    of the selection paths of all rules; the result is [undefined] when no
    data is needed. *)
Definition generateSelectForRules (rules : list Expression) (forAuthContext : bool)
  : option (list (string * SelectShape)) :=
  let paths := flat_map (collectReferencePaths forAuthContext) rules in
  let result :=
    fold_left (fun acc p => addPath (sameKey forAuthContext) p acc) paths [] in
  match result with
  | [] => None
  | _ => Some result
  end.

(** Modelled from the spec: [generateQueryGuardFunction] of [./utils], which
    is not among the sources.  It adds one named function, the query guard of
    the given rules, to the source file and returns it; the function itself
    is the parameter [queryGuard]. *)
Definition generateQueryGuardFunction (model : DataModel) (kind : PolicyOperationKind)
  (allows denies : list Expression) (forField : option DataModelField)
  (fieldOverride : bool) : Gen FunctionDeclaration :=
  addFunction (queryGuard sdk model kind allows denies forField fieldOverride).

(* ----------------------------------------------------------------- *)
(** *** Model-level definitions *)

Definition refersToDefaultOfModel (model : DataModel) (target : RefTarget) : bool :=
  match target with
  | DataModelFieldTarget f =>
      String.eqb (refContainer f) (modelName model) && hasAttribute sdk f "@default"
  | OtherTarget _ => false
  end.

Definition refersToForeignKey (target : RefTarget) : bool :=
  match target with
  | DataModelFieldTarget f => isForeignKeyField sdk f
  | OtherTarget _ => false
  end.

(** The callback that [canCheckCreateBasedOnInput] runs on every node of a
    rule. *)
Definition checkableNode (model : DataModel) (expr : Expression) : bool :=
  if isThisExpr expr then false
  else
    match expr with
    | ReferenceExpr target resolved =>
        if isDataModel resolved then false
        else if refersToDefaultOfModel model target then false
        else if refersToForeignKey target then false
        else true
    | _ => true
    end.

Definition canCheckCreateBasedOnInput (model : DataModel)
  (allows denies : list Expression) : bool :=
  forallb (fun rule => forallb (checkableNode model) (streamAst rule))
          (allows ++ denies).

(** The text written by the statement writer of the create input checker. *)
Definition createInputReturn (allows denies : list Expression) : string :=
  if isEmpty allows then "return false;"
  else
    let expr :=
      if Nat.ltb 0 (length denies)
      then Some ("!(" +++ join " || " (map (transform sdk) denies) +++ ")")
      else None in
    let allowStmt := join " || " (map (transform sdk) allows) in
    let expr' :=
      match whenTruthy expr with
      | Some e => e +++ " && (" +++ allowStmt +++ ")"
      | None => allowStmt
      end in
    "return " +++ expr'.

Definition generateCreateInputCheckerFunction (model : DataModel)
  (allows denies : list Expression) : Gen FunctionDeclaration :=
  let statements := generateNormalizedAuthRef sdk model allows denies in
  addFunction
    {| fnName := modelName model +++ "_create_input";
       fnReturnType := "boolean";
       fnParameters := [("input", "any"); ("context", "QueryContext")];
       fnStatements := statements ++ [createInputReturn allows denies] |}.

Definition writeCreateInputChecker (model : DataModel) : Gen unit :=
  let allows := getPolicyExpressions sdk (OfModel model) Allow Create false in
  let denies := getPolicyExpressions sdk (OfModel model) Deny Create false in
  if canCheckCreateBasedOnInput model allows denies then
    inputCheckFunc <- generateCreateInputCheckerFunction model allows denies ;;
    write ("inputChecker: " +++ fnName inputCheckFunc +++ ",")
  else ret tt.

Definition writePostUpdatePreValueSelector (model : DataModel) : Gen unit :=
  let allows := getPolicyExpressions sdk (OfModel model) Allow PostUpdate false in
  let denies := getPolicyExpressions sdk (OfModel model) Deny PostUpdate false in
  match generateSelectForRules (allows ++ denies) false with
  | Some preValueSelect =>
      writeLine ("preUpdateSelector: " +++ JSON_stringify preValueSelect +++ ",")
  | None => ret tt
  end.

Definition writePolicyGuard (model : DataModel) (kind : PolicyOperationKind)
  (policies : PolicyAnalysisResult) (allows denies : list Expression) : Gen unit :=
  if isUpdate kind && isEmpty allows then
    if isEmpty (getPolicyExpressions sdk (OfModel model) Allow PostUpdate false)
    then write "guard: false,"
    else write "guard: true,"
  else if isPostUpdate kind && isEmpty allows && isEmpty denies then
    write "guard: true,"
  else
    match policies kind with
    | Some constant => write ("guard: " +++ boolText constant +++ ",")
    | None =>
        guardFunc <- generateQueryGuardFunction model kind allows denies None false ;;
        write ("guard: " +++ fnName guardFunc +++ ",")
    end.

Definition generatePermissionCheckerFunction (model : DataModel) (kind : string)
  (allows denies : list Expression) : Gen FunctionDeclaration :=
  let statements := generateNormalizedAuthRef sdk model allows denies in
  let transformed := transformRules sdk allows denies in
  addFunction
    {| fnName := modelName model +++ "$checker$" +++ kind;
       fnReturnType := "CheckerConstraint";
       fnParameters := [("context", "CheckerContext")];
       fnStatements := statements ++ ["return " +++ transformed +++ ";"] |}.

Definition writePermissionChecker (model : DataModel) (kind : PolicyOperationKind)
  (policies : PolicyAnalysisResult) (allows denies : list Expression) : Gen unit :=
  if negb (isExactlyTrue (generatePermissionChecker options)) then ret tt
  else
    match policies kind with
    | Some constant => write ("permissionChecker: " +++ boolText constant +++ ",")
    | None =>
        if isUpdate kind && isEmpty allows then
          if isEmpty (getPolicyExpressions sdk (OfModel model) Allow PostUpdate false)
          then write "permissionChecker: false,"
          else write "permissionChecker: true,"
        else
          guardFunc <-
            generatePermissionCheckerFunction model (kindText kind) allows denies ;;
          write ("permissionChecker: " +++ fnName guardFunc +++ ",")
    end.

Definition writeCommonModelDef (model : DataModel) (kind : PolicyOperationKind)
  (policies : PolicyAnalysisResult) : Gen unit :=
  let allows := getPolicyExpressions sdk (OfModel model) Allow kind false in
  let denies := getPolicyExpressions sdk (OfModel model) Deny kind false in
  writePolicyGuard model kind policies allows denies ;;
  if negb (isPostUpdate kind)
  then writePermissionChecker model kind policies allows denies
  else ret tt.

Definition writeModelReadDef (model : DataModel) (policies : PolicyAnalysisResult)
  : Gen unit :=
  write "read:" ;;
  inlineBlock (writeCommonModelDef model Read policies) ;;
  writeLine ",".

Definition writeModelCreateDef (model : DataModel) (policies : PolicyAnalysisResult)
  : Gen unit :=
  write "create:" ;;
  inlineBlock (writeCommonModelDef model Create policies ;;
               writeCreateInputChecker model) ;;
  writeLine ",".

Definition writeModelUpdateDef (model : DataModel) (policies : PolicyAnalysisResult)
  : Gen unit :=
  write "update:" ;;
  inlineBlock (writeCommonModelDef model Update policies) ;;
  writeLine ",".

Definition writeModelPostUpdateDef (model : DataModel) (policies : PolicyAnalysisResult)
  : Gen unit :=
  write "postUpdate:" ;;
  inlineBlock (writeCommonModelDef model PostUpdate policies ;;
               writePostUpdatePreValueSelector model) ;;
  writeLine ",".

Definition writeModelDeleteDef (model : DataModel) (policies : PolicyAnalysisResult)
  : Gen unit :=
  write "delete:" ;;
  inlineBlock (writeCommonModelDef model Delete policies).

Definition writeModelLevelDefs (model : DataModel) : Gen unit :=
  let policies := analyzePolicies sdk model in
  write "modelLevel:" ;;
  inlineBlock (writeModelReadDef model policies ;;
               writeModelCreateDef model policies ;;
               writeModelUpdateDef model policies ;;
               writeModelPostUpdateDef model policies ;;
               writeModelDeleteDef model policies) ;;
  writeLine ",".

(* ----------------------------------------------------------------- *)
(** *** Field-level definitions *)

(** The text written by the statement writer of a field read checker; it
    throws when there is neither a deny nor an allow statement. *)
Definition fieldReadReturn (allows denies : list Expression) : Result string :=
  let denyStmt :=
    if Nat.ltb 0 (length denies)
    then Some ("!(" +++ join " || " (map (transform sdk) denies) +++ ")")
    else None in
  let allowStmt :=
    if Nat.ltb 0 (length allows)
    then Some ("(" +++ join " || " (map (transform sdk) allows) +++ ")")
    else None in
  match whenTruthy denyStmt, whenTruthy allowStmt with
  | Some d, Some a => Ok ("return " +++ d +++ " && " +++ a)
  | Some d, None => Ok ("return " +++ d)
  | None, Some a => Ok ("return " +++ a)
  | None, None => Throw "should not happen"
  end.

(** [container] is [field.$container]. *)
Definition generateFieldReadCheckerFunction (container : DataModel)
  (field : DataModelField) (allows denies : list Expression) : Gen FunctionDeclaration :=
  let statements := generateNormalizedAuthRef sdk container allows denies in
  body <- liftResult (fieldReadReturn allows denies) ;;
  addFunction
    {| fnName := modelName container +++ "$" +++ fieldName field +++ "_read";
       fnReturnType := "boolean";
       fnParameters := [("input", "any"); ("context", "QueryContext")];
       fnStatements := statements ++ [body] |}.

(** The local variables of [writeFieldReadDef] that its loop updates. *)
Record FieldReadVars := {
  fieldCheckers : StringRecord;
  readOverrideGuards : StringRecord;
  allFieldsAllows : list Expression;
  allFieldsDenies : list Expression
}.

(** One iteration of the field loop of [writeFieldReadDef]. *)
Definition fieldReadStep (model : DataModel) (vars : FieldReadVars)
  (field : DataModelField) : Gen FieldReadVars :=
  let allows := getPolicyExpressions sdk (OfField field) Allow Read false in
  let denies := getPolicyExpressions sdk (OfField field) Deny Read false in
  if isEmpty denies && isEmpty allows then ret vars  (* continue *)
  else
    guardFunc <- generateFieldReadCheckerFunction model field allows denies ;;
    let vars1 :=
      {| fieldCheckers := recordSet (fieldName field) (fnName guardFunc) (fieldCheckers vars);
         readOverrideGuards := readOverrideGuards vars;
         allFieldsAllows := allFieldsAllows vars ++ allows;
         allFieldsDenies := allFieldsDenies vars ++ denies |} in
    let overrideAllows := getPolicyExpressions sdk (OfField field) Allow Read true in
    if Nat.ltb 0 (length overrideAllows) then
      let denies := getPolicyExpressions sdk (OfField field) Deny Read false in
      overrideGuardFunc <-
        generateQueryGuardFunction model Read overrideAllows denies (Some field) true ;;
      ret {| fieldCheckers := fieldCheckers vars1;
             readOverrideGuards :=
               recordSet (fieldName field) (fnName overrideGuardFunc)
                         (readOverrideGuards vars1);
             allFieldsAllows := allFieldsAllows vars1;
             allFieldsDenies := allFieldsDenies vars1 |}
    else ret vars1.

Definition writeEntries (entries : StringRecord) : Gen unit :=
  forEach entries (fun kv => write (fst kv +++ ": " +++ snd kv +++ ",")).

Definition writeFieldReadDef (model : DataModel) : Gen unit :=
  vars <- forOf (modelFields model) (fieldReadStep model)
            {| fieldCheckers := []; readOverrideGuards := [];
               allFieldsAllows := []; allFieldsDenies := [] |} ;;
  if Nat.ltb 0 (length (recordKeys (fieldCheckers vars)))
     || Nat.ltb 0 (length (recordKeys (readOverrideGuards vars)))
  then
    write "read:" ;;
    block
      ((if Nat.ltb 0 (length (recordKeys (fieldCheckers vars))) then
          write "checker:" ;;
          inlineBlock (writeEntries (fieldCheckers vars)) ;;
          writeLine "," ;;
          match generateSelectForRules
                  (allFieldsAllows vars ++ allFieldsDenies vars) false with
          | Some readFieldCheckSelect =>
              write ("selector: " +++ JSON_stringify readFieldCheckSelect +++ ",")
          | None => ret tt
          end
        else ret tt) ;;
       (if Nat.ltb 0 (length (recordKeys (readOverrideGuards vars))) then
          write "overrideGuard:" ;;
          inlineBlock (writeEntries (readOverrideGuards vars)) ;;
          writeLine ","
        else ret tt)) ;;
    writeLine ","
  else ret tt.

(** The local variables of [writeFieldUpdateDef] that its loop updates. *)
Record FieldUpdateVars := {
  guards : StringRecord;
  updateOverrideGuards : StringRecord
}.

(** One iteration of the field loop of [writeFieldUpdateDef]. *)
Definition fieldUpdateStep (model : DataModel) (vars : FieldUpdateVars)
  (field : DataModelField) : Gen FieldUpdateVars :=
  let allows := getPolicyExpressions sdk (OfField field) Allow Update false in
  let denies := getPolicyExpressions sdk (OfField field) Deny Update false in
  if isEmpty denies && isEmpty allows then ret vars  (* continue *)
  else
    guardFunc <- generateQueryGuardFunction model Update allows denies (Some field) false ;;
    let vars1 :=
      {| guards := recordSet (fieldName field) (fnName guardFunc) (guards vars);
         updateOverrideGuards := updateOverrideGuards vars |} in
    let overrideAllows := getPolicyExpressions sdk (OfField field) Allow Update true in
    if Nat.ltb 0 (length overrideAllows) then
      overrideGuardFunc <-
        generateQueryGuardFunction model Update overrideAllows denies (Some field) true ;;
      ret {| guards := guards vars1;
             updateOverrideGuards :=
               recordSet (fieldName field) (fnName overrideGuardFunc)
                         (updateOverrideGuards vars1) |}
    else ret vars1.

Definition writeFieldUpdateDef (model : DataModel) : Gen unit :=
  vars <- forOf (modelFields model) (fieldUpdateStep model)
            {| guards := []; updateOverrideGuards := [] |} ;;
  if Nat.ltb 0 (length (recordKeys (guards vars)))
     || Nat.ltb 0 (length (recordKeys (updateOverrideGuards vars)))
  then
    write "update:" ;;
    block
      ((if Nat.ltb 0 (length (recordKeys (guards vars))) then
          write "guard:" ;;
          inlineBlock (writeEntries (guards vars)) ;;
          writeLine ","
        else ret tt) ;;
       (if Nat.ltb 0 (length (recordKeys (updateOverrideGuards vars))) then
          write "overrideGuard:" ;;
          inlineBlock (writeEntries (updateOverrideGuards vars)) ;;
          writeLine ","
        else ret tt))
  else ret tt.

Definition writeFieldLevelDefs (model : DataModel) : Gen unit :=
  write "fieldLevel:" ;;
  inlineBlock (writeFieldReadDef model ;; writeFieldUpdateDef model) ;;
  writeLine ",".

Definition writePolicy (models : list DataModel) : Gen unit :=
  write "policy:" ;;
  inlineBlock
    (forEach models (fun model =>
       write (lowerCaseFirst (modelName model) +++ ":") ;;
       block (writeModelLevelDefs model ;; writeFieldLevelDefs model) ;;
       writeLine ",")) ;;
  writeLine ",".

(* ----------------------------------------------------------------- *)
(** *** Auth selector *)

Definition includes (names : list string) (name : string) : bool :=
  existsb (String.eqb name) names.

(** [attr.args[1].value] of an attribute that has it. *)
Definition ruleExpression (attr : Attribute) : list Expression :=
  match nth_error (attrArgs attr) 1 with
  | Some arg => [argValue arg]
  | None => []
  end.

(** The rule expressions that [generateAuthSelector] reads off one model. *)
Definition allExpressions (model : DataModel) : list Expression :=
  let modelPolicyAttrs :=
    filter (fun attr => includes ["@@allow"; "@@deny"] (declRefText attr))
           (modelAttributes model) in
  let fieldPolicyAttrs :=
    filter (fun attr => includes ["@allow"; "@deny"] (declRefText attr))
           (flat_map fieldAttributes (modelFields model)) in
  flat_map ruleExpression
    (filter (fun attr => Nat.ltb 1 (length (attrArgs attr)))
            (modelPolicyAttrs ++ fieldPolicyAttrs)).

Definition isAuthMemberAccess (node : Expression) : bool :=
  match node with
  | MemberAccessExpr operand _ => isAuthInvocation sdk operand
  | _ => false
  end.

(** The [authRules] array once the loop over all models is over. *)
Definition collectAuthRules (models : list DataModel) : list Expression :=
  flat_map
    (fun model =>
       flat_map (fun rule => filter isAuthMemberAccess (streamAst rule))
                (allExpressions model))
    models.

Definition generateAuthSelector (models : list DataModel)
  : option (list (string * SelectShape)) :=
  let authRules := collectAuthRules models in
  if Nat.ltb 0 (length authRules) then generateSelectForRules authRules true
  else None.

Definition writeAuthSelector (models : list DataModel) : Gen unit :=
  match generateAuthSelector models with
  | Some authSelector => write ("authSelector: " +++ JSON_stringify authSelector +++ ",")
  | None => ret tt
  end.

(* ----------------------------------------------------------------- *)
(** *** Validation meta *)

Definition writeValidationMeta (models : list DataModel) : Gen unit :=
  write "validation:" ;;
  inlineBlock
    (forEach models (fun model =>
       write (lowerCaseFirst (modelName model) +++ ":") ;;
       inlineBlock
         (write ("hasValidation: " +++ boolText (hasValidationAttributes sdk model))) ;;
       writeLine ",")) ;;
  writeLine ",".

(* ----------------------------------------------------------------- *)
(** *** The source file *)

Definition enumNames (model : Model) : list string :=
  flat_map (fun d => match d with
                     | EnumDeclaration name =>
                         if isEnumReferenced sdk model name then [name] else []
                     | _ => []
                     end)
           (declarations model).

Definition writeImports (model : Model) (output : string) : Gen unit :=
  addStatement
    (ImportDeclaration
       ["type QueryContext"; "type CrudContract"; "allFieldsEqual";
        "type PolicyDef"; "type CheckerContext"; "type CheckerConstraint"]
       (RUNTIME_PACKAGE sdk)) ;;
  let prismaImport := getPrismaClientImportSpec sdk output options in
  forEach (enumNames model) (fun e => addStatement (ImportDeclaration [e] prismaImport)).

(** [sf.addVariableStatement]: the statement goes where the file ended when the
    call was made; its initializer is written by a writer of its own, and the
    functions added meanwhile follow it. *)
Definition addVariableStatement (declarationKind name type : string)
  (initializer : Gen unit) : Gen unit :=
  fun st =>
    let index := length (sourceFile st) in
    match initializer {| writer := []; sourceFile := sourceFile st |} with
    | Ok (_, st') =>
        Ok (tt, {| writer := writer st;
                   sourceFile :=
                     firstn index (sourceFile st')
                       ++ [VariableStatement declarationKind name type (writer st')]
                       ++ skipn index (sourceFile st') |})
    | Throw msg => Throw msg
    end.

(** What [generate] does to the fresh source file. *)
Definition writeSourceFile (model : Model) (output : string) : Gen unit :=
  addStatement (RawStatement "/* eslint-disable */") ;;
  writeImports model output ;;
  let models := getDataModels sdk model in
  addVariableStatement "const" "policy" "PolicyDef"
    (block (writePolicy models ;;
            writeValidationMeta models ;;
            writeAuthSelector models)) ;;
  addStatement (RawStatement "export default policy").

(** A ts-morph project: its source files by path, and the files saved to the
    file system. *)
Record Project := {
  sourceFiles : list (string * SourceFile);
  savedFiles : list (string * SourceFile)
}.

Fixpoint setFile (path : string) (sf : SourceFile) (files : list (string * SourceFile))
  : list (string * SourceFile) :=
  match files with
  | [] => [(path, sf)]
  | (p, old) :: rest =>
      if String.eqb p path then (p, sf) :: rest
      else (p, old) :: setFile path sf rest
  end.

Fixpoint getFile (path : string) (files : list (string * SourceFile))
  : option SourceFile :=
  match files with
  | [] => None
  | (p, sf) :: rest => if String.eqb p path then Some sf else getFile path rest
  end.

(** Save the file if requested explicitly or the user provided an output. *)
Definition preserveTs : bool :=
  isExactlyTrue (preserveTsFiles options) || truthyOption (output options).

(** [generate]: [createSourceFile] with [overwrite: true] starts from an empty
    file whatever the project held at that path.  A failure of [sf.save()] is
    left out, like the exceptions of the imported helpers. *)
Definition generate (project : Project) (model : Model) (output : string)
  : Result Project :=
  let path := path_join sdk output "policy.ts" in
  match writeSourceFile model output {| writer := []; sourceFile := [] |} with
  | Ok (_, st) =>
      let sf := sourceFile st in
      Ok {| sourceFiles := setFile path sf (sourceFiles project);
            savedFiles :=
              if preserveTs then setFile path sf (savedFiles project)
              else savedFiles project |}
  | Throw msg => Throw msg
  end.

End PolicyGenerator.

(* ================================================================= *)
(** ** A sample schema and sample helpers *)

(** The helpers below stand in for the imported ones on a small schema; they
    serve the examples that run the generator. *)
Module Sample.

Definition str (text : string) : Expression := LiteralExpr text.
Definition field (model name : string) : Expression :=
  ReferenceExpr (DataModelFieldTarget {| refContainer := model; refName := name |}) None.
Definition auth : Expression := InvocationExpr "auth" [].
Definition eq (l r : Expression) : Expression := BinaryExpr "==" l r.
Definition rule (name operation : string) (condition : Expression) : Attribute :=
  {| declRefText := name;
     attrArgs := [ {| argValue := str operation |}; {| argValue := condition |} ] |}.
Definition overrideRule (name operation : string) (condition : Expression) : Attribute :=
  {| declRefText := name;
     attrArgs := [ {| argValue := str operation |}; {| argValue := condition |};
                   {| argValue := str "true" |} ] |}.
Definition plain (name : string) : DataModelField :=
  {| fieldName := name; fieldAttributes := [] |}.

(** [Post] of the end-to-end example: readable when published, everything
    else for its author. *)
Definition Post : DataModel :=
  {| modelName := "Post";
     modelFields := [ {| fieldName := "id";
                         fieldAttributes := [ {| declRefText := "@id"; attrArgs := [] |} ] |};
                      plain "title"; plain "published"; plain "authorId" ];
     modelAttributes :=
       [ rule "@@allow" "read" (eq (field "Post" "published") (str "true"));
         rule "@@allow" "all" (eq (MemberAccessExpr auth "id") (field "Post" "authorId")) ] |}.

Definition content : DataModelField :=
  {| fieldName := "content";
     fieldAttributes :=
       [ overrideRule "@allow" "read"
           (eq (MemberAccessExpr auth "id") (field "Comment" "ownerId"));
         rule "@deny" "read" (eq (field "Comment" "hidden") (str "true")) ] |}.

(** [Comment]: readable by everyone, created by signed-in users; [content]
    has field-level read rules, one of them marked as override. *)
Definition Comment : DataModel :=
  {| modelName := "Comment";
     modelFields := [ {| fieldName := "id";
                         fieldAttributes :=
                           [ {| declRefText := "@id"; attrArgs := [] |};
                             {| declRefText := "@default"; attrArgs := [] |} ] |};
                      content; plain "hidden"; plain "ownerId" ];
     modelAttributes :=
       [ rule "@@allow" "read" (str "true");
         rule "@@allow" "create" (eq (field "Comment" "ownerId") (str "1")) ] |}.

(** [Draft]: its create rule reads [id], a field with a default value. *)
Definition Draft : DataModel :=
  {| modelName := "Draft";
     modelFields := [ {| fieldName := "id";
                         fieldAttributes :=
                           [ {| declRefText := "@id"; attrArgs := [] |};
                             {| declRefText := "@default"; attrArgs := [] |} ] |};
                      plain "text" ];
     modelAttributes :=
       [ rule "@@allow" "create" (eq (field "Draft" "id") (str "1")) ] |}.

Definition schema : Model :=
  {| declarations := [ DataModelDeclaration Post; DataModelDeclaration Comment;
                       DataModelDeclaration Draft; EnumDeclaration "Role" ] |}.

Definition dataModels (m : Model) : list DataModel :=
  flat_map (fun d => match d with DataModelDeclaration dm => [dm] | _ => [] end)
           (declarations m).

Definition literalText (e : option Expression) : option string :=
  match e with
  | Some (LiteralExpr text) => Some text
  | _ => None
  end.

Definition argument (n : nat) (attr : Attribute) : option Expression :=
  option_map argValue (nth_error (attrArgs attr) n).

Definition familyName (target : PolicyTarget) (kind : PolicyKind) : string :=
  match target, kind with
  | OfModel _, Allow => "@@allow"
  | OfModel _, Deny => "@@deny"
  | OfField _, Allow => "@allow"
  | OfField _, Deny => "@deny"
  end.

Definition targetAttributes (target : PolicyTarget) : list Attribute :=
  match target with
  | OfModel m => modelAttributes m
  | OfField f => fieldAttributes f
  end.

Definition isOverride (attr : Attribute) : bool :=
  match literalText (argument 2 attr) with
  | Some text => String.eqb text "true"
  | None => false
  end.

Definition appliesTo (operation : PolicyOperationKind) (attr : Attribute) : bool :=
  match literalText (argument 0 attr) with
  | Some text => String.eqb text (kindText operation) || String.eqb text "all"
  | None => false
  end.

(** A collector over the attributes of the subject: the rules of the family
    that name the operation or [all]; with [override], only those marked so. *)
Definition policyExpressions (target : PolicyTarget) (kind : PolicyKind)
  (operation : PolicyOperationKind) (override : bool) : list Expression :=
  flat_map (fun attr => match argument 1 attr with Some e => [e] | None => [] end)
    (filter (fun attr =>
               String.eqb (declRefText attr) (familyName target kind)
               && appliesTo operation attr
               && (if override then isOverride attr else true))
            (targetAttributes target)).

Definition isLiteralTrue (e : Expression) : bool :=
  match e with
  | LiteralExpr text => String.eqb text "true"
  | _ => false
  end.

(** A constant-policy analysis: deny-all without allow rule, allow-all with a
    literal [true] allow rule and no deny rule. *)
Definition analyze (m : DataModel) : PolicyAnalysisResult :=
  fun kind =>
    match kind with
    | PostUpdate => None
    | _ =>
        let allows := policyExpressions (OfModel m) Allow kind false in
        let denies := policyExpressions (OfModel m) Deny kind false in
        match allows, denies with
        | [], _ => Some false
        | _, [] => if existsb isLiteralTrue allows then Some true else None
        | _, _ => None
        end
    end.

Definition isAuth (e : Expression) : bool :=
  match e with
  | InvocationExpr name [] => String.eqb name "auth"
  | _ => false
  end.

Definition hasFieldAttribute (f : FieldRef) (name : string) : bool :=
  existsb (fun m =>
             String.eqb (modelName m) (refContainer f)
             && existsb (fun fld =>
                           String.eqb (fieldName fld) (refName f)
                           && existsb (fun attr => String.eqb (declRefText attr) name)
                                      (fieldAttributes fld))
                        (modelFields m))
          (dataModels schema).

(** A printer of rule expressions. *)
Fixpoint print (e : Expression) : string :=
  match e with
  | LiteralExpr text => text
  | NullExpr => "null"
  | ThisExpr => "this"
  | ReferenceExpr (DataModelFieldTarget f) _ => "input?." +++ refName f
  | ReferenceExpr (OtherTarget name) _ => name
  | MemberAccessExpr operand member => print operand +++ "?." +++ member
  | InvocationExpr name args =>
      if isAuth e then "user" else name +++ "(" +++ join ", " (map print args) +++ ")"
  | UnaryExpr op operand => op +++ "(" +++ print operand +++ ")"
  | BinaryExpr op l r => "(" +++ print l +++ " " +++ op +++ " " +++ print r +++ ")"
  | ArrayExpr items => "[" +++ join ", " (map print items) +++ "]"
  end.

Definition authRef (m : DataModel) (allows denies : list Expression) : list string :=
  if existsb (fun r => existsb isAuth (streamAst r)) (allows ++ denies)
  then ["const user: any = context.user ?? null;"]
  else [].

(** A boolean combination of rules: some allow rule holds and no deny rule
    does. *)
Definition combine (allows denies : list Expression) : string :=
  match denies with
  | [] => "(" +++ join " || " (map print allows) +++ ")"
  | _ => "(" +++ join " || " (map print allows) +++ ") && !("
             +++ join " || " (map print denies) +++ ")"
  end.

(** Modelled from the spec: the function added by [generateQueryGuardFunction]
    ([./utils] is not among the sources), a query guard built from the
    OR of the allow rules and the negated OR of the deny rules. *)
Definition guardFunction (m : DataModel) (kind : PolicyOperationKind)
  (allows denies : list Expression) (forField : option DataModelField)
  (fieldOverride : bool) : FunctionDeclaration :=
  {| fnName := modelName m
               +++ match forField with Some f => "$" +++ fieldName f | None => "" end
               +++ (if fieldOverride then "$override" else "")
               +++ "_" +++ kindText kind;
     fnReturnType := "any";
     fnParameters := [("context", "QueryContext"); ("db", "CrudContract")];
     fnStatements := authRef m allows denies ++ ["return " +++ combine allows denies +++ ";"] |}.

Definition sdk : Sdk :=
  {| RUNTIME_PACKAGE := "@zenstackhq/runtime";
     getDataModels := dataModels;
     getPolicyExpressions := policyExpressions;
     analyzePolicies := analyze;
     hasAttribute := hasFieldAttribute;
     hasValidationAttributes := fun _ => false;
     isAuthInvocation := isAuth;
     isForeignKeyField := fun _ => false;
     isEnumReferenced := fun _ _ => false;
     getPrismaClientImportSpec := fun _ _ => "@prisma/client";
     path_join := fun dir file => dir +++ "/" +++ file;
     transform := print;
     transformRules := combine;
     generateNormalizedAuthRef := authRef;
     queryGuard := guardFunction |}.

Definition withChecker : PluginOptions :=
  {| generatePermissionChecker := Some (OptBool true);
     preserveTsFiles := None;
     output := None |}.

Definition defaults : PluginOptions :=
  {| generatePermissionChecker := None;
     preserveTsFiles := None;
     output := None |}.

Definition start : GenState := {| writer := []; sourceFile := [] |}.

End Sample.

(* ================================================================= *)
(** ** Definitions used by the statements: the specification in its own words, and effects *)

(** A state after constants were written: the source file is left alone. *)
Definition wrote (ops : list WriterOp) (st : GenState) : GenState :=
  {| writer := writer st ++ ops; sourceFile := sourceFile st |}.

(** The default [update] guard of a model without [update] allow rule: deny,
    unless a [postUpdate] allow rule exists. *)
Definition updateDefaultGuard (sdk : Sdk) (model : DataModel) : string :=
  if isEmpty (getPolicyExpressions sdk (OfModel model) Allow PostUpdate false)
  then "guard: false," else "guard: true,".

(** A rule expression is input-checkable: it holds no [this], no reference
    whose resolved type is a data model, no reference to a field of the
    current model that carries [@default], and no reference to a foreign-key
    field. *)
Record InputCheckable (sdk : Sdk) (model : DataModel) (rule : Expression) : Prop := {
  no_this : ~ In ThisExpr (streamAst rule);
  no_relation :
    forall target decl,
      In (ReferenceExpr target decl) (streamAst rule) -> isDataModel decl = false;
  no_default :
    forall f decl,
      In (ReferenceExpr (DataModelFieldTarget f) decl) (streamAst rule) ->
      refContainer f = modelName model -> hasAttribute sdk f "@default" = false;
  no_foreign_key :
    forall f decl,
      In (ReferenceExpr (DataModelFieldTarget f) decl) (streamAst rule) ->
      isForeignKeyField sdk f = false
}.

(** The OR-combination of the transformed rules. *)
Definition orCombined (sdk : Sdk) (rules : list Expression) : string :=
  join " || " (map (transform sdk) rules).

(** The return statement of a create input checker: [false] without allow
    rule; otherwise the OR of the allow rules, behind the negated OR of the
    deny rules when there is a deny rule. *)
Definition createInputBody (sdk : Sdk) (allows denies : list Expression) : string :=
  match allows, denies with
  | [], _ => "return false;"
  | _ :: _, [] => "return " +++ orCombined sdk allows
  | _ :: _, _ :: _ =>
      "return !(" +++ orCombined sdk denies +++ ") && (" +++ orCombined sdk allows +++ ")"
  end.

(** A field carries a field-level rule for the operation. *)
Definition hasRule (sdk : Sdk) (operation : PolicyOperationKind)
  (field : DataModelField) : Prop :=
  getPolicyExpressions sdk (OfField field) Allow operation false <> []
  \/ getPolicyExpressions sdk (OfField field) Deny operation false <> [].

(** The effect of a generator step that does not throw: what it appends to
    the writer and to the source file. *)
Definition extend (ops : list WriterOp) (stmts : list Statement) (st : GenState)
  : GenState :=
  {| writer := writer st ++ ops; sourceFile := sourceFile st ++ stmts |}.

(** [m] returns [a], writes [ops] and adds [stmts], whatever the state. *)
Definition yields {A} (m : Gen A) (a : A) (ops : list WriterOp)
  (stmts : list Statement) : Prop :=
  forall st, m st = Ok (a, extend ops stmts st).

(** The entries of a record as they are written: [name: function,]. *)
Definition entryOps (entries : StringRecord) : list WriterOp :=
  map (fun kv => Write (fst kv +++ ": " +++ snd kv +++ ",")) entries.

(** The [read] section of [fieldLevel] for the records that the field loop
    has filled: absent when both are empty. *)
Definition fieldReadOps (sdk : Sdk) (vars : FieldReadVars) : list WriterOp :=
  let checkerOps :=
    match fieldCheckers vars with
    | [] => []
    | _ :: _ =>
        [Write "checker:"; InlineBlock (entryOps (fieldCheckers vars)); WriteLine ","]
          ++ match generateSelectForRules sdk
                     (allFieldsAllows vars ++ allFieldsDenies vars) false with
             | Some select => [Write ("selector: " +++ JSON_stringify select +++ ",")]
             | None => []
             end
    end in
  let overrideOps :=
    match readOverrideGuards vars with
    | [] => []
    | _ :: _ =>
        [Write "overrideGuard:"; InlineBlock (entryOps (readOverrideGuards vars));
         WriteLine ","]
    end in
  match fieldCheckers vars, readOverrideGuards vars with
  | [], [] => []
  | _, _ => [Write "read:"; Block (checkerOps ++ overrideOps); WriteLine ","]
  end.

(** The [update] section of [fieldLevel], likewise. *)
Definition fieldUpdateOps (vars : FieldUpdateVars) : list WriterOp :=
  let guardOps :=
    match guards vars with
    | [] => []
    | _ :: _ => [Write "guard:"; InlineBlock (entryOps (guards vars)); WriteLine ","]
    end in
  let overrideOps :=
    match updateOverrideGuards vars with
    | [] => []
    | _ :: _ =>
        [Write "overrideGuard:"; InlineBlock (entryOps (updateOverrideGuards vars));
         WriteLine ","]
    end in
  match guards vars, updateOverrideGuards vars with
  | [], [] => []
  | _, _ => [Write "update:"; Block (guardOps ++ overrideOps)]
  end.

Definition noReadVars : FieldReadVars :=
  {| fieldCheckers := []; readOverrideGuards := [];
     allFieldsAllows := []; allFieldsDenies := [] |}.

Definition noUpdateVars : FieldUpdateVars :=
  {| guards := []; updateOverrideGuards := [] |}.

(** What a piece of the generator writes, seen from a fresh writer (as the
    body of a block is). *)
Definition written (m : Gen unit) (st : GenState) : list WriterOp :=
  match m {| writer := []; sourceFile := sourceFile st |} with
  | Ok (_, st') => writer st'
  | Throw _ => []
  end.

(** A policy rule expression of a model: the second argument of a model-level
    [@@allow] or [@@deny] attribute, or of a field-level [@allow] or [@deny]
    attribute, that has at least two arguments. *)
Definition policyRuleOf (model : DataModel) (rule : Expression) : Prop :=
  exists attr,
    ((In attr (modelAttributes model)
      /\ (declRefText attr = "@@allow" \/ declRefText attr = "@@deny"))
     \/ (exists field,
            In field (modelFields model) /\ In attr (fieldAttributes field)
            /\ (declRefText attr = "@allow" \/ declRefText attr = "@deny")))
    /\ exists first second rest,
         attrArgs attr = first :: second :: rest /\ rule = argValue second.

(** The rule holds a member access on an [auth()] invocation. *)
Definition accessesAuthMember (sdk : Sdk) (rule : Expression) : Prop :=
  exists operand member,
    In (MemberAccessExpr operand member) (streamAst rule)
    /\ isAuthInvocation sdk operand = true.

(** Some policy rule of some model accesses a member of [auth()]. *)
Definition someRuleAccessesAuth (sdk : Sdk) (models : list DataModel) : Prop :=
  exists model rule,
    In model models /\ policyRuleOf model rule /\ accessesAuthMember sdk rule.

(** What the field loop of [writeFieldReadDef] keeps true of its variables,
    after the fields [done], with [stmts] added to the source file so far:
    a record holds a field name once, a field with an override guard has a
    checker, the rules gathered for the selector are the read rules of the
    fields, and every entry names a function that was added. *)
Record ReadLoopInvariant (sdk : Sdk) (done : list DataModelField)
  (vars : FieldReadVars) (stmts : list Statement) : Prop := {
  read_checker_keys_once : NoDup (recordKeys (fieldCheckers vars));
  read_override_keys_once : NoDup (recordKeys (readOverrideGuards vars));
  read_override_has_checker :
    incl (recordKeys (readOverrideGuards vars)) (recordKeys (fieldCheckers vars));
  read_allows_gathered :
    allFieldsAllows vars
    = flat_map (fun f => getPolicyExpressions sdk (OfField f) Allow Read false) done;
  read_denies_gathered :
    allFieldsDenies vars
    = flat_map (fun f => getPolicyExpressions sdk (OfField f) Deny Read false) done;
  read_checker_defined :
    forall k v, In (k, v) (fieldCheckers vars) ->
                exists f, In (FunctionStatement f) stmts /\ fnName f = v;
  read_override_defined :
    forall k v, In (k, v) (readOverrideGuards vars) ->
                exists f, In (FunctionStatement f) stmts /\ fnName f = v
}.

(** The same for the field loop of [writeFieldUpdateDef]. *)
Record UpdateLoopInvariant (vars : FieldUpdateVars) (stmts : list Statement) : Prop := {
  update_guard_keys_once : NoDup (recordKeys (guards vars));
  update_override_keys_once : NoDup (recordKeys (updateOverrideGuards vars));
  update_override_has_guard :
    incl (recordKeys (updateOverrideGuards vars)) (recordKeys (guards vars));
  update_guard_defined :
    forall k v, In (k, v) (guards vars) ->
                exists f, In (FunctionStatement f) stmts /\ fnName f = v;
  update_override_defined :
    forall k v, In (k, v) (updateOverrideGuards vars) ->
                exists f, In (FunctionStatement f) stmts /\ fnName f = v
}.

(** The return statement of a field read checker: the negated OR of the deny
    rules, the OR of the allow rules, or both. *)
Definition fieldReadBody (sdk : Sdk) (allows denies : list Expression) : string :=
  match denies, allows with
  | _ :: _, _ :: _ =>
      "return !(" +++ orCombined sdk denies +++ ") && (" +++ orCombined sdk allows +++ ")"
  | _ :: _, [] => "return !(" +++ orCombined sdk denies +++ ")"
  | [], _ => "return (" +++ orCombined sdk allows +++ ")"
  end.

(** A field with update rules, one of them marked as override. *)
Definition titleWithUpdateRules : DataModelField :=
  {| fieldName := "title";
     fieldAttributes :=
       [ Sample.overrideRule "@allow" "update"
           (Sample.eq (MemberAccessExpr Sample.auth "id") (Sample.field "Post" "authorId"));
         Sample.rule "@deny" "update"
           (Sample.eq (Sample.field "Post" "published") (Sample.str "true")) ] |}.

(** The definition of an operation kind starts with its guard entry. *)
Definition guardFirst (entries : list WriterOp) : Prop :=
  exists g rest, entries = Write ("guard: " +++ g) :: rest.

(** The key under which a model is listed. *)
Definition modelKey (model : DataModel) : string :=
  lowerCaseFirst (modelName model) +++ ":".

(** The texts written directly in a block, nested blocks left aside. *)
Definition writtenKeys (ops : list WriterOp) : list string :=
  flat_map (fun op => match op with Write text => [text] | _ => [] end) ops.

(** A model without any attribute. *)
Definition Tag : DataModel :=
  {| modelName := "Tag"; modelFields := [Sample.plain "name"]; modelAttributes := [] |}.

(** The project that [generate] returns on the sample schema, from an empty
    project and with the default options. *)
Definition sampleProject : Project :=
  match generate Sample.defaults Sample.sdk {| sourceFiles := []; savedFiles := [] |}
          Sample.schema "out" with
  | Ok project => project
  | Throw _ => {| sourceFiles := []; savedFiles := [] |}
  end.

(** The statement is a generated function. *)
Definition isFunctionStatement (s : Statement) : Prop :=
  exists f, s = FunctionStatement f.

(** The statement is an import or a generated function. *)
Definition isImportOrFunction (s : Statement) : Prop :=
  (exists names specifier, s = ImportDeclaration names specifier)
  \/ isFunctionStatement s.

(** [m] completes and adds nothing but functions to the source file. *)
Definition addsFunctions (m : Gen unit) : Prop :=
  exists ops stmts, yields m tt ops stmts /\ Forall isFunctionStatement stmts.

(* ================================================================= *)
(** ** Running the monad *)

Lemma isEmpty_nil_iff {A} (xs : list A) : isEmpty xs = true <-> xs = [].
Proof.
  unfold isEmpty. destruct xs; simpl; split; intro H; try reflexivity; discriminate.
Qed.

Lemma isEmpty_false_iff {A} (xs : list A) : isEmpty xs = false <-> xs <> [].
Proof.
  unfold isEmpty. destruct xs; simpl; split; intro H;
    try reflexivity; try discriminate; congruence.
Qed.

Lemma positive_length_negb {A} (xs : list A) : Nat.ltb 0 (length xs) = negb (isEmpty xs).
Proof. destruct xs; reflexivity. Qed.

Lemma bind_ok {A B} (m : Gen A) (k : A -> Gen B) st a st' :
  m st = Ok (a, st') -> bind m k st = k a st'.
Proof. unfold bind. intros ->. reflexivity. Qed.

Lemma prefix_append (p s : string) : String.prefix p (p +++ s) = true.
Proof.
  induction p as [|c p IH]; simpl.
  - destruct s; reflexivity.
  - destruct (ascii_dec c c); [exact IH | congruence].
Qed.

Lemma wrote_nil st : wrote [] st = st.
Proof. destruct st; unfold wrote; simpl. now rewrite app_nil_r. Qed.

Lemma wrote_wrote ops1 ops2 st : wrote ops2 (wrote ops1 st) = wrote (ops1 ++ ops2) st.
Proof. unfold wrote; simpl. now rewrite app_assoc. Qed.

(* ================================================================= *)
(** ** Model-level guards *)

Section ModelLevel.

Variable options : PluginOptions.
Variable sdk : Sdk.

Lemma writePolicyGuard_update_no_allow model policies denies st :
  writePolicyGuard sdk model Update policies [] denies st
  = Ok (tt, wrote [Write (updateDefaultGuard sdk model)] st).
Proof.
  unfold writePolicyGuard, updateDefaultGuard. simpl.
  destruct (isEmpty _); reflexivity.
Qed.

(** With no allow rule for [update] the permission checker, when one is asked
    for, is a constant too. *)
Lemma writePermissionChecker_update_no_allow model policies denies st :
  exists ops,
    writePermissionChecker options sdk model Update policies [] denies st
    = Ok (tt, wrote ops st)
    /\ forall op, In op ops ->
         exists text, op = Write text /\ String.prefix "permissionChecker: " text = true.
Proof.
  unfold writePermissionChecker.
  destruct (isExactlyTrue _); simpl.
  - destruct (policies Update) as [constant|].
    + eexists; split; [reflexivity|].
      intros op [<-|[]]. eexists; split; [reflexivity | exact (prefix_append "permissionChecker: " _)].
    + destruct (isEmpty _); (eexists; split; [reflexivity|]);
        intros op [<-|[]]; eexists; split; reflexivity.
  - exists []. split; [now rewrite wrote_nil | intros op []].
Qed.

End ModelLevel.

(** C1. A model without an [update] allow rule gets a constant update guard:
    [false] when it has no [postUpdate] allow rule either, [true] when it has
    one.  No function is added to the source file: the guard is a constant,
    and so is the permission checker that may follow it. *)
Theorem update_guard_default_without_allow_rule :
  forall options sdk model policies st,
    getPolicyExpressions sdk (OfModel model) Allow Update false = [] ->
    exists guardEntry rest,
      writeCommonModelDef options sdk model Update policies st
      = Ok (tt, {| writer := writer st ++ Write guardEntry :: rest;
                   sourceFile := sourceFile st |})
      /\ (getPolicyExpressions sdk (OfModel model) Allow PostUpdate false = [] ->
          guardEntry = "guard: false,")
      /\ (getPolicyExpressions sdk (OfModel model) Allow PostUpdate false <> [] ->
          guardEntry = "guard: true,")
      /\ (forall op, In op rest ->
            exists text, op = Write text
                         /\ String.prefix "permissionChecker: " text = true).
Proof.
  intros options sdk model policies st Hnone.
  unfold writeCommonModelDef. rewrite Hnone.
  destruct (writePermissionChecker_update_no_allow options sdk model policies
              (getPolicyExpressions sdk (OfModel model) Deny Update false)
              (wrote [Write (updateDefaultGuard sdk model)] st)) as (ops & Hrun & Hops).
  exists (updateDefaultGuard sdk model), ops.
  repeat split.
  - erewrite bind_ok by apply writePolicyGuard_update_no_allow.
    simpl. rewrite Hrun. rewrite wrote_wrote. reflexivity.
  - intros Hpost. unfold updateDefaultGuard. now rewrite Hpost.
  - intros Hpost. unfold updateDefaultGuard.
    apply isEmpty_false_iff in Hpost. now rewrite Hpost.
  - exact Hops.
Qed.

(** The sample [Comment] model has no [update] rule at all. *)
Lemma update_guard_default_on_Comment :
  exists guardEntry rest,
    writeCommonModelDef Sample.withChecker Sample.sdk Sample.Comment Update
      (Sample.analyze Sample.Comment) Sample.start
    = Ok (tt, {| writer := writer Sample.start ++ Write guardEntry :: rest;
                 sourceFile := sourceFile Sample.start |})
    /\ (getPolicyExpressions Sample.sdk (OfModel Sample.Comment) Allow PostUpdate false = [] ->
        guardEntry = "guard: false,")
    /\ (getPolicyExpressions Sample.sdk (OfModel Sample.Comment) Allow PostUpdate false <> [] ->
        guardEntry = "guard: true,")
    /\ (forall op, In op rest ->
          exists text, op = Write text
                       /\ String.prefix "permissionChecker: " text = true).
Proof.
  apply (update_guard_default_without_allow_rule Sample.withChecker Sample.sdk
           Sample.Comment (Sample.analyze Sample.Comment) Sample.start).
  reflexivity.
Defined.

(* ================================================================= *)
(** ** Create input checker *)

Section CreateInput.

Variable sdk : Sdk.

Lemma checkableNode_reference model target decl :
  checkableNode sdk model (ReferenceExpr target decl) = true <->
  isDataModel decl = false
  /\ refersToDefaultOfModel sdk model target = false
  /\ refersToForeignKey sdk target = false.
Proof.
  unfold checkableNode; simpl.
  destruct (isDataModel decl), (refersToDefaultOfModel sdk model target),
    (refersToForeignKey sdk target); intuition discriminate.
Qed.

Lemma checkableRule_iff model rule :
  forallb (checkableNode sdk model) (streamAst rule) = true <->
  InputCheckable sdk model rule.
Proof.
  rewrite forallb_forall. split.
  - intros Hall. constructor.
    + intros Hin. apply Hall in Hin. discriminate.
    + intros target decl Hin. apply Hall in Hin.
      now apply checkableNode_reference in Hin.
    + intros f decl Hin Hown. apply Hall in Hin.
      apply checkableNode_reference in Hin as (_ & Hdefault & _).
      simpl in Hdefault. rewrite Hown, String.eqb_refl in Hdefault. exact Hdefault.
    + intros f decl Hin. apply Hall in Hin.
      now apply checkableNode_reference in Hin as (_ & _ & Hfk).
  - intros [Hthis Hrel Hdef Hfk] expr Hin.
    destruct expr; try reflexivity.
    + contradiction.
    + apply checkableNode_reference. split; [|split].
      * eapply Hrel; eassumption.
      * destruct target as [f|name]; [|reflexivity]. simpl.
        destruct (String.eqb_spec (refContainer f) (modelName model)) as [Hown|];
          [|reflexivity].
        simpl. eapply Hdef; eassumption.
      * destruct target as [f|name]; [|reflexivity]. simpl.
        eapply Hfk; eassumption.
Qed.

Lemma canCheckCreateBasedOnInput_iff model allows denies :
  canCheckCreateBasedOnInput sdk model allows denies = true <->
  Forall (InputCheckable sdk model) (allows ++ denies).
Proof.
  unfold canCheckCreateBasedOnInput.
  rewrite forallb_forall, Forall_forall.
  split; intros H rule Hin; apply checkableRule_iff; auto.
Qed.

End CreateInput.

Lemma state_not_extended st op sf :
  st <> {| writer := writer st ++ [op]; sourceFile := sf |}.
Proof.
  intros Heq. apply (f_equal (fun s => length (writer s))) in Heq.
  simpl in Heq. rewrite length_app in Heq. simpl in Heq. lia.
Qed.

(** C2. The create input checker is emitted exactly when every [create]
    allow and deny rule is input-checkable; when some rule is not, nothing is
    written and no function is added. *)
Theorem create_input_checker_iff_input_checkable :
  forall sdk model st,
    let allows := getPolicyExpressions sdk (OfModel model) Allow Create false in
    let denies := getPolicyExpressions sdk (OfModel model) Deny Create false in
    ((exists f,
        writeCreateInputChecker sdk model st
        = Ok (tt, {| writer := writer st ++ [Write ("inputChecker: " +++ fnName f +++ ",")];
                     sourceFile := sourceFile st ++ [FunctionStatement f] |}))
     <-> Forall (InputCheckable sdk model) (allows ++ denies))
    /\ ((forall text,
            ~ In (Write ("inputChecker: " +++ text))
                 (written (writeCreateInputChecker sdk model) st))
        <-> ~ Forall (InputCheckable sdk model) (allows ++ denies))
    /\ (writeCreateInputChecker sdk model st = Ok (tt, st)
        <-> ~ Forall (InputCheckable sdk model) (allows ++ denies)).
Proof.
  intros sdk model st allows denies.
  pose proof (canCheckCreateBasedOnInput_iff sdk model allows denies) as Hiff.
  unfold written, writeCreateInputChecker. fold allows denies.
  destruct (canCheckCreateBasedOnInput sdk model allows denies) eqn:Hcan.
  - assert (Hok : Forall (InputCheckable sdk model) (allows ++ denies))
      by now apply Hiff.
    split; [|split].
    + split; [intros _; exact Hok|]. intros _. eexists. reflexivity.
    + split; [|contradiction]. intros Hnone. exfalso. simpl in Hnone.
      eapply Hnone. left. reflexivity.
    + split; [|contradiction]. intros Hsame. exfalso.
      unfold bind, generateCreateInputCheckerFunction, addFunction in Hsame.
      simpl in Hsame. injection Hsame as Hsame.
      symmetry in Hsame. eapply state_not_extended. exact Hsame.
  - assert (Hno : ~ Forall (InputCheckable sdk model) (allows ++ denies)).
    { intros Hok. apply Hiff in Hok. discriminate. }
    split; [|split].
    + split; [|contradiction]. intros [f Hrun]. exfalso.
      unfold ret in Hrun. injection Hrun as Hrun.
      eapply state_not_extended. exact Hrun.
    + split; [intros _; exact Hno|]. intros _ text [].
    + split; [intros _; exact Hno|]. reflexivity.
Qed.

Lemma append_assoc (a b c : string) : (a +++ b) +++ c = a +++ b +++ c.
Proof. induction a as [|ch a IH]; simpl; [reflexivity | now rewrite IH]. Qed.

Lemma createInputReturn_body sdk allows denies :
  createInputReturn sdk allows denies = createInputBody sdk allows denies.
Proof.
  unfold createInputReturn, createInputBody, orCombined.
  destruct allows as [|a allows]; [reflexivity|].
  destruct denies as [|d denies]; [reflexivity|].
  cbn [isEmpty length Nat.eqb Nat.ltb Nat.leb whenTruthy nonEmpty String.append].
  simpl. now rewrite append_assoc.
Qed.

(** C5. The create input checker that gets emitted is built from the
    [create] rules of the model: when these are input-checkable,
    [writeCreateInputChecker] adds the function [Model_create_input] whose
    statements end in the return statement of the specification over the
    model's create allow and deny rules ([false] with no allow rule, else the
    OR of the transformed allow rules, conjoined with the negated OR of the
    transformed deny rules when there is one), and writes the entry naming it;
    it never adds any other function.  The statement writer itself gives that
    return statement for any two rule lists. *)
Theorem create_input_checker_body :
  forall sdk model st,
    let allows := getPolicyExpressions sdk (OfModel model) Allow Create false in
    let denies := getPolicyExpressions sdk (OfModel model) Deny Create false in
    let checker :=
      {| fnName := modelName model +++ "_create_input";
         fnReturnType := "boolean";
         fnParameters := [("input", "any"); ("context", "QueryContext")];
         fnStatements :=
           generateNormalizedAuthRef sdk model allows denies
             ++ [createInputBody sdk allows denies] |} in
    (forall someAllows someDenies st0,
        exists f,
          generateCreateInputCheckerFunction sdk model someAllows someDenies st0
          = Ok (f, {| writer := writer st0;
                      sourceFile := sourceFile st0 ++ [FunctionStatement f] |})
          /\ fnName f = modelName model +++ "_create_input"
          /\ fnStatements f
             = generateNormalizedAuthRef sdk model someAllows someDenies
                 ++ [createInputBody sdk someAllows someDenies])
    /\ (Forall (InputCheckable sdk model) (allows ++ denies) ->
        writeCreateInputChecker sdk model st
        = Ok (tt, {| writer := writer st
                                 ++ [Write ("inputChecker: " +++ fnName checker +++ ",")];
                     sourceFile := sourceFile st ++ [FunctionStatement checker] |}))
    /\ (forall f st',
          writeCreateInputChecker sdk model st = Ok (tt, st') ->
          In (FunctionStatement f) (sourceFile st') ->
          In (FunctionStatement f) (sourceFile st) \/ f = checker).
Proof.
  intros sdk model st allows denies checker.
  assert (Hfunc : generateCreateInputCheckerFunction sdk model allows denies
                  = addFunction checker).
  { unfold generateCreateInputCheckerFunction, checker.
    now rewrite createInputReturn_body. }
  split; [|split].
  - intros someAllows someDenies st0.
    eexists. split; [reflexivity|]. split; [reflexivity|].
    simpl. now rewrite createInputReturn_body.
  - intros Hok. apply canCheckCreateBasedOnInput_iff in Hok.
    unfold writeCreateInputChecker. fold allows denies. rewrite Hok, Hfunc.
    reflexivity.
  - intros f st'. unfold writeCreateInputChecker. fold allows denies.
    destruct (canCheckCreateBasedOnInput sdk model allows denies).
    + rewrite Hfunc. unfold bind, addFunction, write, emit. simpl.
      intros Hrun Hin. injection Hrun as <-. simpl in Hin.
      apply in_app_or in Hin as [Hin|[Hin|[]]]; [now left|].
      right. now injection Hin as <-.
    + unfold ret. intros Hrun Hin. injection Hrun as <-. now left.
Qed.

(** The create rules of the sample [Post] model are input-checkable. *)
Lemma create_input_checker_body_on_Post :
  writeCreateInputChecker Sample.sdk Sample.Post Sample.start
  = Ok (tt,
        {| writer := writer Sample.start ++ [Write "inputChecker: Post_create_input,"];
           sourceFile :=
             sourceFile Sample.start
               ++ [FunctionStatement
                     {| fnName := "Post_create_input";
                        fnReturnType := "boolean";
                        fnParameters := [("input", "any"); ("context", "QueryContext")];
                        fnStatements :=
                          ["const user: any = context.user ?? null;";
                           "return (user?.id == input?.authorId)"] |}] |}).
Proof.
  apply (proj1 (proj2 (create_input_checker_body Sample.sdk Sample.Post Sample.start))).
  apply canCheckCreateBasedOnInput_iff. reflexivity.
Defined.

(** C4. A model without [postUpdate] allow and deny rules gets the constant
    postUpdate guard [true] and no [preUpdateSelector]; the source file is
    left as it was. *)
Theorem postUpdate_guard_default_without_rules :
  forall options sdk model policies st,
    getPolicyExpressions sdk (OfModel model) Allow PostUpdate false = [] ->
    getPolicyExpressions sdk (OfModel model) Deny PostUpdate false = [] ->
    writeModelPostUpdateDef options sdk model policies st
    = Ok (tt, {| writer := writer st
                             ++ [Write "postUpdate:";
                                 InlineBlock [Write "guard: true,"];
                                 WriteLine ","];
                 sourceFile := sourceFile st |}).
Proof.
  intros options sdk model policies st Hallow Hdeny.
  unfold writeModelPostUpdateDef, writeCommonModelDef,
    writePostUpdatePreValueSelector, writePolicyGuard.
  rewrite Hallow, Hdeny. simpl.
  unfold bind, inlineBlock, nested, write, writeLine, emit, ret. simpl.
  rewrite <- !app_assoc. reflexivity.
Qed.

(** The sample [Comment] model declares nothing for [postUpdate]. *)
Lemma postUpdate_guard_default_on_Comment :
  writeModelPostUpdateDef Sample.withChecker Sample.sdk Sample.Comment
    (Sample.analyze Sample.Comment) Sample.start
  = Ok (tt, {| writer := writer Sample.start
                           ++ [Write "postUpdate:";
                               InlineBlock [Write "guard: true,"];
                               WriteLine ","];
               sourceFile := sourceFile Sample.start |}).
Proof.
  apply (postUpdate_guard_default_without_rules Sample.withChecker Sample.sdk Sample.Comment
           (Sample.analyze Sample.Comment) Sample.start); reflexivity.
Defined.

(* ================================================================= *)
(** ** Effects of the writer primitives *)

Section Effects.

Lemma extend_nil st : extend [] [] st = st.
Proof. destruct st; unfold extend; simpl. now rewrite !app_nil_r. Qed.

Lemma extend_extend o1 s1 o2 s2 st :
  extend o2 s2 (extend o1 s1 st) = extend (o1 ++ o2) (s1 ++ s2) st.
Proof. unfold extend; simpl. now rewrite !app_assoc. Qed.

Lemma yields_ret {A} (a : A) : yields (ret a) a [] [].
Proof. intros st. unfold ret. now rewrite extend_nil. Qed.

Lemma yields_bind {A B} (m : Gen A) (k : A -> Gen B) a b o1 s1 o2 s2 :
  yields m a o1 s1 -> yields (k a) b o2 s2 ->
  yields (bind m k) b (o1 ++ o2) (s1 ++ s2).
Proof.
  intros Hm Hk st. unfold bind. rewrite Hm, Hk. now rewrite extend_extend.
Qed.

Lemma yields_write text : yields (write text) tt [Write text] [].
Proof. intros st. unfold write, emit, extend. now rewrite app_nil_r. Qed.

Lemma yields_writeLine text : yields (writeLine text) tt [WriteLine text] [].
Proof. intros st. unfold writeLine, emit, extend. now rewrite app_nil_r. Qed.

Lemma yields_addFunction f : yields (addFunction f) f [] [FunctionStatement f].
Proof. intros st. unfold addFunction, extend. now rewrite app_nil_r. Qed.

Lemma yields_addStatement s : yields (addStatement s) tt [] [s].
Proof. intros st. unfold addStatement, extend. now rewrite app_nil_r. Qed.

Lemma yields_nested wrap body ops stmts :
  yields body tt ops stmts -> yields (nested wrap body) tt [wrap ops] stmts.
Proof. intros Hbody st. unfold nested. rewrite Hbody. reflexivity. Qed.

Lemma yields_forEach {A} (xs : list A) (body : A -> Gen unit)
  (ops : A -> list WriterOp) (stmts : A -> list Statement) :
  (forall x, In x xs -> yields (body x) tt (ops x) (stmts x)) ->
  yields (forEach xs body) tt (flat_map ops xs) (flat_map stmts xs).
Proof.
  induction xs as [|x xs IH]; intros Hbody; simpl.
  - apply yields_ret.
  - apply yields_bind with (a := tt).
    + apply Hbody. now left.
    + apply IH. intros y Hy. apply Hbody. now right.
Qed.

Lemma yields_eq {A} (m : Gen A) a ops ops' stmts stmts' :
  yields m a ops stmts -> ops = ops' -> stmts = stmts' -> yields m a ops' stmts'.
Proof. now intros H <- <-. Qed.

Lemma yields_inj {A} (m : Gen A) a a' ops ops' stmts stmts' :
  yields m a ops stmts -> yields m a' ops' stmts' ->
  a = a' /\ ops = ops' /\ stmts = stmts'.
Proof.
  intros H H'.
  specialize (H {| writer := []; sourceFile := [] |}).
  rewrite H' in H. unfold extend in H. simpl in H.
  injection H as -> -> ->. auto.
Qed.

End Effects.

(** The entries of a record, as [writeEntries] writes them. *)
Lemma yields_writeEntries entries :
  yields (writeEntries entries) tt
    (map (fun kv => Write (fst kv +++ ": " +++ snd kv +++ ",")) entries) [].
Proof.
  unfold writeEntries.
  eapply yields_eq.
  - apply (yields_forEach entries _
             (fun kv => [Write (fst kv +++ ": " +++ snd kv +++ ",")])
             (fun _ => @nil Statement)).
    intros kv _. apply yields_write.
  - induction entries as [|kv entries IH]; simpl; [reflexivity | f_equal; exact IH].
  - induction entries as [|kv entries IH]; simpl; [reflexivity | exact IH].
Qed.

(* ================================================================= *)
(** ** Field-level read checkers *)

Section FieldRead.

Variable sdk : Sdk.

Lemma recordSet_keys key value r k :
  In k (recordKeys (recordSet key value r)) <-> k = key \/ In k (recordKeys r).
Proof.
  unfold recordKeys. induction r as [|[k0 v0] r IH]; simpl.
  - intuition.
  - destruct (String.eqb_spec k0 key) as [->|Hne]; simpl.
    + intuition.
    + rewrite IH. intuition.
Qed.

(** The statement writer of the read checker throws exactly when it is given
    no rule at all. *)
Lemma fieldReadReturn_throws_iff allows denies :
  (exists msg, fieldReadReturn sdk allows denies = Throw msg)
  <-> allows = [] /\ denies = [].
Proof.
  unfold fieldReadReturn.
  destruct allows as [|a allows], denies as [|d denies]; simpl; split;
    try (intros [msg Hthrow]; discriminate);
    try (intros [Ha Hd]; discriminate).
  - auto.
  - intros _. eexists. reflexivity.
Qed.

Lemma fieldReadReturn_ok allows denies :
  allows <> [] \/ denies <> [] ->
  exists body, fieldReadReturn sdk allows denies = Ok body.
Proof.
  intros Hrule.
  destruct (fieldReadReturn sdk allows denies) as [body|msg] eqn:Hrun.
  - now exists body.
  - assert (Hnone : allows = [] /\ denies = [])
      by (apply fieldReadReturn_throws_iff; now exists msg).
    destruct Hnone as [-> ->]. destruct Hrule; congruence.
Qed.

Lemma yields_generateFieldReadCheckerFunction container field allows denies :
  allows <> [] \/ denies <> [] ->
  exists f,
    yields (generateFieldReadCheckerFunction sdk container field allows denies)
           f [] [FunctionStatement f]
    /\ fnName f = modelName container +++ "$" +++ fieldName field +++ "_read".
Proof.
  intros Hrule. destruct (fieldReadReturn_ok allows denies Hrule) as [body Hbody].
  eexists. split.
  - intros st. unfold generateFieldReadCheckerFunction, bind, liftResult.
    rewrite Hbody. apply yields_addFunction.
  - reflexivity.
Qed.

Lemma hasRule_dec operation field :
  {hasRule sdk operation field} + {~ hasRule sdk operation field}.
Proof.
  unfold hasRule.
  destruct (getPolicyExpressions sdk (OfField field) Allow operation false);
    destruct (getPolicyExpressions sdk (OfField field) Deny operation false);
    try (left; (left + right); discriminate).
  right. intros []; congruence.
Qed.

Lemma skip_iff_no_rule operation field :
  isEmpty (getPolicyExpressions sdk (OfField field) Deny operation false)
  && isEmpty (getPolicyExpressions sdk (OfField field) Allow operation false) = true
  <-> ~ hasRule sdk operation field.
Proof.
  unfold hasRule.
  destruct (getPolicyExpressions sdk (OfField field) Allow operation false);
    destruct (getPolicyExpressions sdk (OfField field) Deny operation false);
    simpl; split; try discriminate; try reflexivity.
  - intros _ []; congruence.
  - intros H. exfalso. apply H. right. discriminate.
  - intros H. exfalso. apply H. left. discriminate.
  - intros H. exfalso. apply H. left. discriminate.
Qed.

(** A field without read rule is skipped: the loop variables, the writer and
    the source file stay as they are. *)
Lemma fieldReadStep_skip model vars field :
  ~ hasRule sdk Read field ->
  fieldReadStep sdk model vars field = ret vars.
Proof.
  intros Hno. apply skip_iff_no_rule in Hno.
  unfold fieldReadStep. now rewrite Hno.
Qed.

(** A field with a read rule gets its checker, and its override guard when it
    has override-marked allow rules: a query guard over these and over all
    the deny rules of the field. *)
Lemma fieldReadStep_rule model vars field :
  hasRule sdk Read field ->
  let allows := getPolicyExpressions sdk (OfField field) Allow Read false in
  let denies := getPolicyExpressions sdk (OfField field) Deny Read false in
  let overrideAllows := getPolicyExpressions sdk (OfField field) Allow Read true in
  let overrideGuard :=
    queryGuard sdk model Read overrideAllows denies (Some field) true in
  exists checker,
    fnName checker = modelName model +++ "$" +++ fieldName field +++ "_read"
    /\ yields (fieldReadStep sdk model vars field)
         {| fieldCheckers :=
              recordSet (fieldName field) (fnName checker) (fieldCheckers vars);
            readOverrideGuards :=
              if isEmpty overrideAllows then readOverrideGuards vars
              else recordSet (fieldName field) (fnName overrideGuard)
                             (readOverrideGuards vars);
            allFieldsAllows := allFieldsAllows vars ++ allows;
            allFieldsDenies := allFieldsDenies vars ++ denies |}
         []
         (FunctionStatement checker
            :: if isEmpty overrideAllows then []
               else [FunctionStatement overrideGuard]).
Proof.
  intros Hrule allows denies overrideAllows overrideGuard.
  destruct (yields_generateFieldReadCheckerFunction model field allows denies Hrule)
    as (checker & Hchecker & Hname).
  exists checker. split; [exact Hname|].
  assert (Hskip : isEmpty denies && isEmpty allows = false).
  { destruct (isEmpty denies && isEmpty allows) eqn:E; [|reflexivity].
    apply skip_iff_no_rule in E. contradiction. }
  unfold fieldReadStep. fold allows denies overrideAllows. rewrite Hskip.
  rewrite positive_length_negb.
  destruct (isEmpty overrideAllows); simpl.
  - eapply yields_eq; [eapply yields_bind; [exact Hchecker | apply yields_ret] | |];
      reflexivity.
  - eapply yields_eq;
      [eapply yields_bind;
       [exact Hchecker
       | eapply yields_bind; [apply yields_addFunction | apply yields_ret]] | |];
      reflexivity.
Qed.

(** Every iteration of the loop completes. *)
Lemma fieldReadStep_completes model vars field :
  exists vars' stmts,
    yields (fieldReadStep sdk model vars field) vars' [] stmts
    /\ (forall k, In k (recordKeys (fieldCheckers vars')) <->
                  In k (recordKeys (fieldCheckers vars))
                  \/ (k = fieldName field /\ hasRule sdk Read field))
    /\ (forall k, In k (recordKeys (readOverrideGuards vars')) ->
                  In k (recordKeys (readOverrideGuards vars))
                  \/ (k = fieldName field /\ hasRule sdk Read field)).
Proof.
  destruct (hasRule_dec Read field) as [Hrule|Hno].
  - destruct (fieldReadStep_rule model vars field Hrule) as (checker & _ & Hrun).
    eexists; eexists. split; [exact Hrun|]. simpl. split.
    + intros k. rewrite recordSet_keys. intuition.
    + intros k. destruct (isEmpty _); [auto|].
      rewrite recordSet_keys. intuition.
  - exists vars, []. rewrite fieldReadStep_skip by exact Hno.
    split; [apply yields_ret|]. split; intros k; intuition.
Qed.

(** The loop over the fields completes, and the fields named in its records
    are fields that carry a read rule. *)
Lemma fieldReadLoop_completes model fields vars :
  exists vars' stmts,
    yields (forOf fields (fieldReadStep sdk model) vars) vars' [] stmts
    /\ (forall k, In k (recordKeys (fieldCheckers vars')) <->
                  In k (recordKeys (fieldCheckers vars))
                  \/ exists f, In f fields /\ fieldName f = k /\ hasRule sdk Read f)
    /\ (forall k, In k (recordKeys (readOverrideGuards vars')) ->
                  In k (recordKeys (readOverrideGuards vars))
                  \/ exists f, In f fields /\ fieldName f = k /\ hasRule sdk Read f).
Proof.
  revert vars. induction fields as [|field fields IH]; intros vars.
  - exists vars, []. split; [apply yields_ret|].
    split; intros k; [|now left]. split; [now left|].
    intros [H|(f & [] & _)]. exact H.
  - destruct (fieldReadStep_completes model vars field)
      as (vars1 & stmts1 & Hstep & Hkeys1 & Hover1).
    destruct (IH vars1) as (vars2 & stmts2 & Hloop & Hkeys2 & Hover2).
    exists vars2, (stmts1 ++ stmts2). split.
    + simpl. eapply yields_eq; [eapply yields_bind; eassumption| |]; reflexivity.
    + split; intros k.
      * rewrite Hkeys2, Hkeys1. split.
        -- intros [[H|[-> H]]|(f & Hin & Hname & H)]; [now left| |].
           ++ right. exists field. simpl. auto.
           ++ right. exists f. simpl. auto.
        -- intros [H|(f & [<-|Hin] & Hname & H)]; [now left; left| |].
           ++ left. right. auto.
           ++ right. exists f. auto.
      * intros Hin. apply Hover2 in Hin as [Hin|(f & Hf & Hname & H)].
        -- apply Hover1 in Hin as [Hin|[-> H]]; [now left|].
           right. exists field. simpl. auto.
        -- right. exists f. simpl. auto.
Qed.

End FieldRead.

(** Composition of effects, one primitive at a time. *)
Ltac effects :=
  repeat first
    [ apply yields_ret
    | apply yields_write
    | apply yields_writeLine
    | apply yields_writeEntries
    | apply yields_addFunction
    | apply yields_addStatement
    | eapply yields_nested
    | eapply yields_bind ].

(** The effects of a straight-line piece of the generator. *)
Ltac summarize :=
  eapply yields_eq; [effects | simpl; rewrite ?app_nil_r; reflexivity ..].

Section FieldSections.

Variable sdk : Sdk.

(** [writeFieldReadDef] completes: it runs the loop and writes the [read]
    section of the records that the loop has filled. *)
Lemma writeFieldReadDef_yields model :
  exists vars stmts,
    yields (forOf (modelFields model) (fieldReadStep sdk model) noReadVars) vars [] stmts
    /\ yields (writeFieldReadDef sdk model) tt (fieldReadOps sdk vars) stmts.
Proof.
  destruct (fieldReadLoop_completes sdk model (modelFields model) noReadVars)
    as (vars & stmts & Hloop & _).
  exists vars, stmts. split; [exact Hloop|].
  unfold writeFieldReadDef.
  eapply yields_eq with (ops := [] ++ fieldReadOps sdk vars) (stmts := stmts ++ []);
    [eapply yields_bind; [exact Hloop|] | reflexivity | apply app_nil_r].
  unfold fieldReadOps, block, inlineBlock.
  destruct (fieldCheckers vars) as [|c cs] eqn:Hc;
    destruct (readOverrideGuards vars) as [|o os] eqn:Ho; simpl;
    try destruct (generateSelectForRules sdk _ false); summarize.
Qed.

End FieldSections.

(* ================================================================= *)
(** ** Field-level update guards *)

Section FieldUpdate.

Variable sdk : Sdk.

Lemma fieldUpdateStep_skip model vars field :
  ~ hasRule sdk Update field ->
  fieldUpdateStep sdk model vars field = ret vars.
Proof.
  intros Hno. apply skip_iff_no_rule in Hno.
  unfold fieldUpdateStep. now rewrite Hno.
Qed.

Lemma fieldUpdateStep_completes model vars field :
  exists vars' stmts,
    yields (fieldUpdateStep sdk model vars field) vars' [] stmts
    /\ (forall k, In k (recordKeys (guards vars')) <->
                  In k (recordKeys (guards vars))
                  \/ (k = fieldName field /\ hasRule sdk Update field))
    /\ (forall k, In k (recordKeys (updateOverrideGuards vars')) ->
                  In k (recordKeys (updateOverrideGuards vars))
                  \/ (k = fieldName field /\ hasRule sdk Update field)).
Proof.
  destruct (hasRule_dec sdk Update field) as [Hrule|Hno].
  - assert (Hskip :
      isEmpty (getPolicyExpressions sdk (OfField field) Deny Update false)
      && isEmpty (getPolicyExpressions sdk (OfField field) Allow Update false) = false).
    { destruct (_ && _) eqn:E; [|reflexivity].
      apply skip_iff_no_rule in E. contradiction. }
    unfold fieldUpdateStep, generateQueryGuardFunction. rewrite Hskip.
    destruct (Nat.ltb 0 _).
    + eexists; eexists. split; [summarize|]. simpl. split; intros k.
      * rewrite recordSet_keys. intuition.
      * rewrite recordSet_keys. intuition.
    + eexists; eexists. split; [summarize|]. simpl. split; intros k.
      * rewrite recordSet_keys. intuition.
      * intuition.
  - exists vars, []. rewrite fieldUpdateStep_skip by exact Hno.
    split; [apply yields_ret|]. split; intros k; intuition.
Qed.

Lemma fieldUpdateLoop_completes model fields vars :
  exists vars' stmts,
    yields (forOf fields (fieldUpdateStep sdk model) vars) vars' [] stmts
    /\ (forall k, In k (recordKeys (guards vars')) <->
                  In k (recordKeys (guards vars))
                  \/ exists f, In f fields /\ fieldName f = k /\ hasRule sdk Update f)
    /\ (forall k, In k (recordKeys (updateOverrideGuards vars')) ->
                  In k (recordKeys (updateOverrideGuards vars))
                  \/ exists f, In f fields /\ fieldName f = k /\ hasRule sdk Update f).
Proof.
  revert vars. induction fields as [|field fields IH]; intros vars.
  - exists vars, []. split; [apply yields_ret|].
    split; intros k; [|now left]. split; [now left|].
    intros [H|(f & [] & _)]. exact H.
  - destruct (fieldUpdateStep_completes model vars field)
      as (vars1 & stmts1 & Hstep & Hkeys1 & Hover1).
    destruct (IH vars1) as (vars2 & stmts2 & Hloop & Hkeys2 & Hover2).
    exists vars2, (stmts1 ++ stmts2). split.
    + simpl. eapply yields_eq; [eapply yields_bind; eassumption| |]; reflexivity.
    + split; intros k.
      * rewrite Hkeys2, Hkeys1. split.
        -- intros [[H|[-> H]]|(f & Hin & Hname & H)]; [now left| |].
           ++ right. exists field. simpl. auto.
           ++ right. exists f. simpl. auto.
        -- intros [H|(f & [<-|Hin] & Hname & H)]; [now left; left| |].
           ++ left. right. auto.
           ++ right. exists f. auto.
      * intros Hin. apply Hover2 in Hin as [Hin|(f & Hf & Hname & H)].
        -- apply Hover1 in Hin as [Hin|[-> H]]; [now left|].
           right. exists field. simpl. auto.
        -- right. exists f. simpl. auto.
Qed.

Lemma writeFieldUpdateDef_yields model :
  exists vars stmts,
    yields (forOf (modelFields model) (fieldUpdateStep sdk model) noUpdateVars)
           vars [] stmts
    /\ yields (writeFieldUpdateDef sdk model) tt (fieldUpdateOps vars) stmts.
Proof.
  destruct (fieldUpdateLoop_completes model (modelFields model) noUpdateVars)
    as (vars & stmts & Hloop & _).
  exists vars, stmts. split; [exact Hloop|].
  unfold writeFieldUpdateDef.
  eapply yields_eq with (ops := [] ++ fieldUpdateOps vars) (stmts := stmts ++ []);
    [eapply yields_bind; [exact Hloop|] | reflexivity | apply app_nil_r].
  unfold fieldUpdateOps, block, inlineBlock.
  destruct (guards vars) as [|c cs] eqn:Hc;
    destruct (updateOverrideGuards vars) as [|o os] eqn:Ho; simpl; summarize.
Qed.

End FieldUpdate.

(* ================================================================= *)
(** ** Fields without rules *)

Section NoRule.

Variable sdk : Sdk.

Lemma forOf_all_skipped {A S} (xs : list A) (body : S -> A -> Gen S) (s : S) :
  (forall s x, In x xs -> body s x = ret s) ->
  yields (forOf xs body s) s [] [].
Proof.
  induction xs as [|x xs IH]; intros Hskip; simpl.
  - apply yields_ret.
  - rewrite Hskip by now left.
    eapply yields_eq; [eapply yields_bind; [apply yields_ret | apply IH] | |];
      try reflexivity.
    intros s' y Hy. apply Hskip. now right.
Qed.

Lemma no_rule_in_list operation fields :
  ~ Exists (hasRule sdk operation) fields ->
  forall f, In f fields -> ~ hasRule sdk operation f.
Proof.
  intros Hno f Hin Hrule. apply Hno. apply Exists_exists. eauto.
Qed.

Lemma keys_nonempty (r : StringRecord) : r <> [] <-> exists k, In k (recordKeys r).
Proof.
  destruct r as [|[k v] r]; simpl; split.
  - congruence.
  - intros [k []].
  - intros _. exists k. now left.
  - discriminate.
Qed.

(** The records of the read loop are empty exactly when no field carries a
    read rule. *)
Lemma read_records_iff model vars stmts :
  yields (forOf (modelFields model) (fieldReadStep sdk model) noReadVars) vars [] stmts ->
  (fieldCheckers vars <> [] <-> Exists (hasRule sdk Read) (modelFields model))
  /\ (readOverrideGuards vars <> [] -> Exists (hasRule sdk Read) (modelFields model))
  /\ (~ Exists (hasRule sdk Read) (modelFields model) -> vars = noReadVars /\ stmts = []).
Proof.
  intros Hloop.
  destruct (fieldReadLoop_completes sdk model (modelFields model) noReadVars)
    as (vars' & stmts' & Hloop' & Hkeys & Hover).
  destruct (yields_inj _ _ _ _ _ _ _ Hloop Hloop') as (<- & _ & <-).
  split; [|split].
  - rewrite keys_nonempty. split.
    + intros [k Hk]. apply Hkeys in Hk as [[]|(f & Hin & _ & Hrule)].
      apply Exists_exists. eauto.
    + intros Hex. apply Exists_exists in Hex as (f & Hin & Hrule).
      exists (fieldName f). apply Hkeys. right. eauto.
  - intros Hne. apply keys_nonempty in Hne as [k Hk].
    apply Hover in Hk as [[]|(f & Hin & _ & Hrule)].
    apply Exists_exists. eauto.
  - intros Hno.
    assert (Hskip : yields (forOf (modelFields model) (fieldReadStep sdk model) noReadVars)
                           noReadVars [] []).
    { apply forOf_all_skipped. intros s x Hx. apply fieldReadStep_skip.
      eapply no_rule_in_list; eassumption. }
    destruct (yields_inj _ _ _ _ _ _ _ Hloop Hskip) as (-> & _ & ->). auto.
Qed.

Lemma update_records_iff model vars stmts :
  yields (forOf (modelFields model) (fieldUpdateStep sdk model) noUpdateVars)
         vars [] stmts ->
  (guards vars <> [] <-> Exists (hasRule sdk Update) (modelFields model))
  /\ (updateOverrideGuards vars <> [] -> Exists (hasRule sdk Update) (modelFields model))
  /\ (~ Exists (hasRule sdk Update) (modelFields model) ->
      vars = noUpdateVars /\ stmts = []).
Proof.
  intros Hloop.
  destruct (fieldUpdateLoop_completes sdk model (modelFields model) noUpdateVars)
    as (vars' & stmts' & Hloop' & Hkeys & Hover).
  destruct (yields_inj _ _ _ _ _ _ _ Hloop Hloop') as (<- & _ & <-).
  split; [|split].
  - rewrite keys_nonempty. split.
    + intros [k Hk]. apply Hkeys in Hk as [[]|(f & Hin & _ & Hrule)].
      apply Exists_exists. eauto.
    + intros Hex. apply Exists_exists in Hex as (f & Hin & Hrule).
      exists (fieldName f). apply Hkeys. right. eauto.
  - intros Hne. apply keys_nonempty in Hne as [k Hk].
    apply Hover in Hk as [[]|(f & Hin & _ & Hrule)].
    apply Exists_exists. eauto.
  - intros Hno.
    assert (Hskip : yields (forOf (modelFields model) (fieldUpdateStep sdk model)
                              noUpdateVars) noUpdateVars [] []).
    { apply forOf_all_skipped. intros s x Hx. apply fieldUpdateStep_skip.
      eapply no_rule_in_list; eassumption. }
    destruct (yields_inj _ _ _ _ _ _ _ Hloop Hskip) as (-> & _ & ->). auto.
Qed.

End NoRule.

(* ================================================================= *)
(** ** Model-level definitions complete *)

Section ModelLevelEffects.

Variable options : PluginOptions.
Variable sdk : Sdk.

Lemma yields_forEach_ex {A} (xs : list A) (body : A -> Gen unit) :
  (forall x, In x xs -> exists ops stmts, yields (body x) tt ops stmts) ->
  exists ops stmts, yields (forEach xs body) tt ops stmts.
Proof.
  induction xs as [|x xs IH]; intros Hbody; simpl.
  - exists [], []. apply yields_ret.
  - destruct (Hbody x (or_introl eq_refl)) as (o1 & s1 & H1).
    destruct IH as (o2 & s2 & H2); [intros y Hy; apply Hbody; now right|].
    exists (o1 ++ o2), (s1 ++ s2). eapply yields_bind; eassumption.
Qed.

(** Every guard entry reads [guard: ...]. *)
Lemma writePolicyGuard_yields model kind policies allows denies :
  exists g stmts,
    yields (writePolicyGuard sdk model kind policies allows denies) tt
           [Write ("guard: " +++ g)] stmts.
Proof.
  unfold writePolicyGuard, generateQueryGuardFunction.
  destruct (isUpdate kind && isEmpty allows).
  - destruct (isEmpty _); eexists; eexists; summarize.
  - destruct (isPostUpdate kind && isEmpty allows && isEmpty denies).
    + eexists; eexists; summarize.
    + destruct (policies kind); eexists; eexists; summarize.
Qed.

(** The permission checker entry is written only under the option. *)
Lemma writePermissionChecker_yields model kind policies allows denies :
  exists ops stmts,
    yields (writePermissionChecker options sdk model kind policies allows denies)
           tt ops stmts
    /\ (isExactlyTrue (generatePermissionChecker options) = false ->
        ops = [] /\ stmts = [])
    /\ (isExactlyTrue (generatePermissionChecker options) = true ->
        exists text, ops = [Write ("permissionChecker: " +++ text)]).
Proof.
  unfold writePermissionChecker, generatePermissionCheckerFunction.
  destruct (isExactlyTrue _); simpl.
  - destruct (policies kind) as [constant|].
    + eexists; eexists. split; [summarize|]. split; [discriminate|].
      intros _. eexists. reflexivity.
    + destruct (isUpdate kind && isEmpty allows); [destruct (isEmpty _)|];
        (eexists; eexists; split; [summarize|]; split; [discriminate|]);
        intros _; eexists; reflexivity.
  - exists [], []. split; [apply yields_ret|]. split; [auto|discriminate].
Qed.

Lemma writeCommonModelDef_yields model kind policies :
  exists g checker stmts,
    yields (writeCommonModelDef options sdk model kind policies) tt
           (Write ("guard: " +++ g) :: checker) stmts
    /\ (isExactlyTrue (generatePermissionChecker options) = false -> checker = [])
    /\ (forall op, In op checker ->
          exists text, op = Write ("permissionChecker: " +++ text)).
Proof.
  unfold writeCommonModelDef.
  set (allows := getPolicyExpressions sdk (OfModel model) Allow kind false).
  set (denies := getPolicyExpressions sdk (OfModel model) Deny kind false).
  destruct (writePolicyGuard_yields model kind policies allows denies)
    as (g & s1 & Hguard).
  destruct (negb (isPostUpdate kind)).
  - destruct (writePermissionChecker_yields model kind policies allows denies)
      as (ops & s2 & Hchecker & Hoff & Hon).
    exists g, ops, (s1 ++ s2). split; [|split].
    + eapply yields_eq; [eapply yields_bind; eassumption| |]; reflexivity.
    + intros Hopt. now apply Hoff.
    + intros op Hin.
      destruct (isExactlyTrue (generatePermissionChecker options)) eqn:Hopt.
      * destruct (Hon eq_refl) as [text ->]. destruct Hin as [<-|[]]. eauto.
      * destruct (Hoff eq_refl) as [-> _]. destruct Hin.
  - exists g, [], (s1 ++ []). split; [|split].
    + eapply yields_eq; [eapply yields_bind; [exact Hguard | apply yields_ret] | |];
        reflexivity.
    + reflexivity.
    + intros op [].
Qed.

Lemma writeCreateInputChecker_yields model :
  exists ops stmts, yields (writeCreateInputChecker sdk model) tt ops stmts.
Proof.
  unfold writeCreateInputChecker, generateCreateInputCheckerFunction.
  destruct (canCheckCreateBasedOnInput _ _ _ _); eexists; eexists; summarize.
Qed.

Lemma writePostUpdatePreValueSelector_yields model :
  exists ops, yields (writePostUpdatePreValueSelector sdk model) tt ops [].
Proof.
  unfold writePostUpdatePreValueSelector.
  destruct (generateSelectForRules _ _ _); eexists; summarize.
Qed.

Lemma writeModelLevelDefs_yields model :
  exists ops stmts, yields (writeModelLevelDefs options sdk model) tt ops stmts.
Proof.
  set (policies := analyzePolicies sdk model).
  destruct (writeCommonModelDef_yields model Read policies) as (g1 & c1 & s1 & H1 & _).
  destruct (writeCommonModelDef_yields model Create policies) as (g2 & c2 & s2 & H2 & _).
  destruct (writeCommonModelDef_yields model Update policies) as (g3 & c3 & s3 & H3 & _).
  destruct (writeCommonModelDef_yields model PostUpdate policies)
    as (g4 & c4 & s4 & H4 & _).
  destruct (writeCommonModelDef_yields model Delete policies) as (g5 & c5 & s5 & H5 & _).
  destruct (writeCreateInputChecker_yields model) as (o6 & s6 & H6).
  destruct (writePostUpdatePreValueSelector_yields model) as (o7 & H7).
  unfold writeModelLevelDefs, writeModelReadDef, writeModelCreateDef,
    writeModelUpdateDef, writeModelPostUpdateDef, writeModelDeleteDef, inlineBlock.
  fold policies.
  eexists; eexists.
  repeat first
    [ exact H1 | exact H2 | exact H3 | exact H4 | exact H5 | exact H6 | exact H7
    | apply yields_write | apply yields_writeLine
    | eapply yields_nested | eapply yields_bind ].
Qed.

Lemma writeFieldLevelDefs_yields model :
  exists ops stmts, yields (writeFieldLevelDefs sdk model) tt ops stmts.
Proof.
  destruct (writeFieldReadDef_yields sdk model) as (v1 & s1 & _ & H1).
  destruct (writeFieldUpdateDef_yields sdk model) as (v2 & s2 & _ & H2).
  unfold writeFieldLevelDefs, inlineBlock.
  eexists; eexists.
  repeat first
    [ exact H1 | exact H2 | apply yields_write | apply yields_writeLine
    | eapply yields_nested | eapply yields_bind ].
Qed.

Lemma writePolicy_yields models :
  exists ops stmts, yields (writePolicy options sdk models) tt ops stmts.
Proof.
  unfold writePolicy, inlineBlock, block.
  destruct (yields_forEach_ex models
              (fun model =>
                 write (lowerCaseFirst (modelName model) +++ ":") ;;
                 nested Block (writeModelLevelDefs options sdk model ;;
                               writeFieldLevelDefs sdk model) ;;
                 writeLine ","))
    as (ops & stmts & Hloop).
  { intros model _.
    destruct (writeModelLevelDefs_yields model) as (o1 & s1 & H1).
    destruct (writeFieldLevelDefs_yields model) as (o2 & s2 & H2).
    eexists; eexists.
    repeat first
      [ exact H1 | exact H2 | apply yields_write | apply yields_writeLine
      | eapply yields_nested | eapply yields_bind ]. }
  eexists; eexists.
  repeat first
    [ exact Hloop | apply yields_write | apply yields_writeLine
    | eapply yields_nested | eapply yields_bind ].
Qed.

Lemma writeValidationMeta_yields models :
  exists ops, yields (writeValidationMeta sdk models) tt ops [].
Proof.
  unfold writeValidationMeta, inlineBlock.
  eexists. eapply yields_eq.
  - eapply yields_bind; [apply yields_write|].
    eapply yields_bind; [|apply yields_writeLine].
    eapply yields_nested.
    apply (yields_forEach models _
             (fun model =>
                [Write (lowerCaseFirst (modelName model) +++ ":");
                 InlineBlock
                   [Write ("hasValidation: "
                           +++ boolText (hasValidationAttributes sdk model))];
                 WriteLine ","])
             (fun _ => @nil Statement)).
    intros model _. summarize.
  - reflexivity.
  - simpl. rewrite app_nil_r. induction models; simpl; auto.
Qed.

End ModelLevelEffects.

Lemma written_yields m ops stmts st : yields m tt ops stmts -> written m st = ops.
Proof. intros H. unfold written. now rewrite H. Qed.

Lemma isExactlyTrue_iff v : isExactlyTrue v = true <-> v = Some (OptBool true).
Proof.
  destruct v as [[[|]|s]|]; simpl; split; intros H;
    try reflexivity; try discriminate; congruence.
Qed.

(* ================================================================= *)
(** ** The claims on field-level sections *)

(** C10. The [should not happen] throw of the field read checker is taken
    only when the checker is asked for with neither allow nor deny rule, and
    the field loop never asks so: every iteration completes, and so does
    [writeFieldReadDef]. *)
Theorem field_read_checker_throw_unreachable :
  forall sdk model st,
    (forall container field allows denies st0,
        (exists msg,
            generateFieldReadCheckerFunction sdk container field allows denies st0
            = Throw msg)
        <-> allows = [] /\ denies = [])
    /\ (forall vars field st0,
          exists vars' st',
            fieldReadStep sdk model vars field st0 = Ok (vars', st'))
    /\ (exists st', writeFieldReadDef sdk model st = Ok (tt, st')).
Proof.
  intros sdk model st. split; [|split].
  - intros container field allows denies st0.
    rewrite <- fieldReadReturn_throws_iff with (sdk := sdk).
    unfold generateFieldReadCheckerFunction, bind, liftResult.
    destruct (fieldReadReturn sdk allows denies) as [body|msg]; split.
    + intros [msg H]. discriminate.
    + intros [msg H]. discriminate.
    + intros _. now exists msg.
    + intros _. now exists msg.
  - intros vars field st0.
    destruct (fieldReadStep_completes sdk model vars field) as (vars' & stmts & H & _).
    eexists; eexists. apply H.
  - destruct (writeFieldReadDef_yields sdk model) as (vars & stmts & _ & H).
    eexists. apply H.
Qed.

(** C3, as the generator has it.  A field with a read rule and at least one
    override-marked read allow rule gets an override guard; it is the query
    guard generated for the override-marked allow rules together with all the
    read deny rules of the field. *)
Theorem field_read_override_guard :
  forall sdk model vars field st,
    let denies := getPolicyExpressions sdk (OfField field) Deny Read false in
    let overrideAllows := getPolicyExpressions sdk (OfField field) Allow Read true in
    let overrideGuard :=
      queryGuard sdk model Read overrideAllows denies (Some field) true in
    hasRule sdk Read field ->
    overrideAllows <> [] ->
    exists checker vars',
      fieldReadStep sdk model vars field st
      = Ok (vars', {| writer := writer st;
                      sourceFile := sourceFile st ++ [FunctionStatement checker;
                                                      FunctionStatement overrideGuard] |})
      /\ readOverrideGuards vars'
         = recordSet (fieldName field) (fnName overrideGuard) (readOverrideGuards vars).
Proof.
  intros sdk model vars field st denies overrideAllows overrideGuard Hrule Hover.
  destruct (fieldReadStep_rule sdk model vars field Hrule) as (checker & _ & Hrun).
  fold denies overrideAllows overrideGuard in Hrun.
  apply isEmpty_false_iff in Hover. rewrite Hover in Hrun.
  exists checker. eexists. split.
  - rewrite Hrun. unfold extend. now rewrite app_nil_r.
  - reflexivity.
Qed.

(** The [content] field of the sample [Comment] model has an override-marked
    read allow rule. *)
Lemma field_read_override_guard_on_content :
  exists checker vars',
    fieldReadStep Sample.sdk Sample.Comment noReadVars Sample.content Sample.start
    = Ok (vars',
          {| writer := writer Sample.start;
             sourceFile :=
               sourceFile Sample.start
                 ++ [FunctionStatement checker;
                     FunctionStatement
                       (queryGuard Sample.sdk Sample.Comment Read
                          (getPolicyExpressions Sample.sdk (OfField Sample.content)
                             Allow Read true)
                          (getPolicyExpressions Sample.sdk (OfField Sample.content)
                             Deny Read false)
                          (Some Sample.content) true)] |})
    /\ readOverrideGuards vars'
       = recordSet (fieldName Sample.content)
           (fnName
              (queryGuard Sample.sdk Sample.Comment Read
                 (getPolicyExpressions Sample.sdk (OfField Sample.content) Allow Read true)
                 (getPolicyExpressions Sample.sdk (OfField Sample.content) Deny Read false)
                 (Some Sample.content) true))
           (readOverrideGuards noReadVars).
Proof.
  apply (field_read_override_guard Sample.sdk Sample.Comment noReadVars
           Sample.content Sample.start).
  - left. discriminate.
  - discriminate.
Defined.

(** C3, as stated, fails: on the [content] field of the sample [Comment]
    model the override guard is not the query guard of the override-marked
    allow rules alone; the deny rule [hidden == true] is handed to the guard
    generator and shows in the function it adds. *)
Lemma field_read_override_guard_takes_deny_rules :
  let overrideAllows :=
    getPolicyExpressions Sample.sdk (OfField Sample.content) Allow Read true in
  let hidden := Sample.eq (Sample.field "Comment" "hidden") (Sample.str "true") in
  exists checker overrideGuard vars',
    fieldReadStep Sample.sdk Sample.Comment noReadVars Sample.content Sample.start
    = Ok (vars', {| writer := [];
                    sourceFile := [FunctionStatement checker;
                                   FunctionStatement overrideGuard] |})
    /\ readOverrideGuards vars' = [("content", fnName overrideGuard)]
    /\ overrideGuard
       = queryGuard Sample.sdk Sample.Comment Read overrideAllows [hidden]
           (Some Sample.content) true
    /\ overrideGuard
       <> queryGuard Sample.sdk Sample.Comment Read overrideAllows []
            (Some Sample.content) true
    /\ fnStatements overrideGuard
       = ["const user: any = context.user ?? null;";
          "return ((user?.id == input?.ownerId)) && !((input?.hidden == true));"].
Proof.
  intros overrideAllows hidden.
  eexists; eexists; eexists. split; [lazy; reflexivity|].
  split; [reflexivity|]. split; [reflexivity|]. split; [discriminate|reflexivity].
Qed.

Lemma writer_not_extended (st : GenState) ops stmts op rest :
  ops = op :: rest -> writer (extend ops stmts st) <> writer st.
Proof.
  intros -> Heq. apply (f_equal (@length _)) in Heq.
  unfold extend in Heq. simpl in Heq. rewrite length_app in Heq. simpl in Heq. lia.
Qed.

(** C9. The [read] section of [fieldLevel] is written exactly when some field
    of the model carries a field-level read allow or deny rule, and the
    [update] section exactly when some field carries a field-level update
    rule; without such a field nothing is written and nothing is added.  A
    field without rule for the kind is passed over: the records of checkers,
    guards and override guards, the writer and the source file stay as they
    are. *)
Theorem field_level_sections_iff_rules :
  forall sdk model st,
    (exists st',
        writeFieldReadDef sdk model st = Ok (tt, st')
        /\ ((exists body,
               writer st' = writer st ++ [Write "read:"; Block body; WriteLine ","])
            <-> Exists (hasRule sdk Read) (modelFields model))
        /\ (st' = st <-> ~ Exists (hasRule sdk Read) (modelFields model)))
    /\ (exists st',
          writeFieldUpdateDef sdk model st = Ok (tt, st')
          /\ ((exists body, writer st' = writer st ++ [Write "update:"; Block body])
              <-> Exists (hasRule sdk Update) (modelFields model))
          /\ (st' = st <-> ~ Exists (hasRule sdk Update) (modelFields model)))
    /\ (forall vars field,
          ~ hasRule sdk Read field ->
          fieldReadStep sdk model vars field st = Ok (vars, st))
    /\ (forall vars field,
          ~ hasRule sdk Update field ->
          fieldUpdateStep sdk model vars field st = Ok (vars, st)).
Proof.
  intros sdk model st. split; [|split; [|split]].
  - destruct (writeFieldReadDef_yields sdk model) as (vars & stmts & Hloop & Hrun).
    destruct (read_records_iff sdk model vars stmts Hloop) as (Hcheck & Hover & Hnone).
    exists (extend (fieldReadOps sdk vars) stmts st). split; [apply Hrun|].
    destruct (Exists_dec (hasRule sdk Read) (modelFields model) (hasRule_dec sdk Read))
      as [Hex|Hno].
    + assert (Hops : exists body,
                 fieldReadOps sdk vars = [Write "read:"; Block body; WriteLine ","]).
      { apply Hcheck in Hex. unfold fieldReadOps.
        destruct (fieldCheckers vars); [congruence|]. eexists. reflexivity. }
      destruct Hops as [body Hops]. split.
      * split; [auto|]. intros _. exists body. unfold extend. simpl. now rewrite Hops.
      * split; [|contradiction]. intros Hsame. exfalso.
        apply (f_equal writer) in Hsame.
        eapply writer_not_extended in Hsame; eauto.
    + destruct (Hnone Hno) as [-> ->]. change (fieldReadOps sdk noReadVars) with (@nil WriterOp).
      rewrite extend_nil. split.
      * split; [|contradiction]. intros [body Hbody]. exfalso.
        apply (f_equal (@length _)) in Hbody. rewrite length_app in Hbody.
        simpl in Hbody. lia.
      * split; auto.
  - destruct (writeFieldUpdateDef_yields sdk model) as (vars & stmts & Hloop & Hrun).
    destruct (update_records_iff sdk model vars stmts Hloop) as (Hguard & Hover & Hnone).
    exists (extend (fieldUpdateOps vars) stmts st). split; [apply Hrun|].
    destruct (Exists_dec (hasRule sdk Update) (modelFields model)
                (hasRule_dec sdk Update)) as [Hex|Hno].
    + assert (Hops : exists body, fieldUpdateOps vars = [Write "update:"; Block body]).
      { apply Hguard in Hex. unfold fieldUpdateOps.
        destruct (guards vars); [congruence|]. eexists. reflexivity. }
      destruct Hops as [body Hops]. split.
      * split; [auto|]. intros _. exists body. unfold extend. simpl. now rewrite Hops.
      * split; [|contradiction]. intros Hsame. exfalso.
        apply (f_equal writer) in Hsame.
        eapply writer_not_extended in Hsame; eauto.
    + destruct (Hnone Hno) as [-> ->]. change (fieldUpdateOps noUpdateVars) with (@nil WriterOp).
      rewrite extend_nil. split.
      * split; [|contradiction]. intros [body Hbody]. exfalso.
        apply (f_equal (@length _)) in Hbody. rewrite length_app in Hbody.
        simpl in Hbody. lia.
      * split; auto.
  - intros vars field Hno. now rewrite fieldReadStep_skip.
  - intros vars field Hno. now rewrite fieldUpdateStep_skip.
Qed.

(* ================================================================= *)
(** ** Permission checkers *)

Lemma not_a_guard_entry text g :
  Write ("permissionChecker: " +++ text) <> Write ("guard: " +++ g).
Proof. simpl. discriminate. Qed.

(** C7. A [permissionChecker] entry is written for a model and an operation
    kind only if the option [generatePermissionChecker] is exactly [true].
    With any other value, or without the option, [writePermissionChecker]
    does nothing and the definition of the kind is its guard entry alone.
    (Nothing else of the generator writes such an entry: the field-level
    definitions, the validation meta and the auth selector do not read the
    options.) *)
Theorem permission_checker_only_under_option :
  forall options sdk model kind policies st,
    ((exists text,
         In (Write ("permissionChecker: " +++ text))
            (written (writeCommonModelDef options sdk model kind policies) st))
     -> generatePermissionChecker options = Some (OptBool true))
    /\ (generatePermissionChecker options <> Some (OptBool true) ->
        (forall allows denies,
            writePermissionChecker options sdk model kind policies allows denies st
            = Ok (tt, st))
        /\ exists g,
             written (writeCommonModelDef options sdk model kind policies) st
             = [Write ("guard: " +++ g)]).
Proof.
  intros options sdk model kind policies st.
  destruct (writeCommonModelDef_yields options sdk model kind policies)
    as (g & checker & stmts & Hrun & Hoff & _).
  rewrite (written_yields _ _ _ st Hrun).
  destruct (isExactlyTrue (generatePermissionChecker options)) eqn:Hopt.
  - apply isExactlyTrue_iff in Hopt. split; [auto|]. contradiction.
  - rewrite (Hoff eq_refl). split.
    + intros [text [Habs|[]]]. symmetry in Habs. now apply not_a_guard_entry in Habs.
    + intros _. split; [|now exists g].
      intros allows denies. unfold writePermissionChecker. now rewrite Hopt.
Qed.

(** With the option set, the sample [Post] model gets a permission checker
    for [read]. *)
Lemma permission_checker_on_Post :
  generatePermissionChecker Sample.withChecker = Some (OptBool true).
Proof.
  apply (proj1 (permission_checker_only_under_option Sample.withChecker Sample.sdk
                  Sample.Post Read (Sample.analyze Sample.Post) Sample.start)).
  exists "Post$checker$read,". right. left. reflexivity.
Defined.

(* ================================================================= *)
(** ** Auth selector *)

Section AuthSelector.

Variable sdk : Sdk.

Lemma includes_two a b name :
  includes [a; b] name = true <-> name = a \/ name = b.
Proof.
  unfold includes. simpl. rewrite !orb_true_iff, !String.eqb_eq.
  intuition discriminate.
Qed.

Lemma ruleExpression_iff attr rule :
  In rule (ruleExpression attr) <->
  exists first second rest,
    attrArgs attr = first :: second :: rest /\ rule = argValue second.
Proof.
  unfold ruleExpression.
  destruct (attrArgs attr) as [|first [|second rest]]; simpl; split.
  - intros [].
  - intros (? & ? & ? & H & _). discriminate.
  - intros [].
  - intros (? & ? & ? & H & _). discriminate.
  - intros [<-|[]]. eauto.
  - intros (? & ? & ? & H & ->). injection H as _ <- _. now left.
Qed.

Lemma allExpressions_iff model rule :
  In rule (allExpressions model) <-> policyRuleOf model rule.
Proof.
  unfold allExpressions, policyRuleOf. rewrite in_flat_map. split.
  - intros (attr & Hattr & Hrule).
    apply filter_In in Hattr as [Hattr _].
    exists attr. split; [|now apply ruleExpression_iff].
    apply in_app_iff in Hattr as [Hm|Hf]; apply filter_In in Hm || apply filter_In in Hf.
    + destruct Hm as [Hin Hname]. apply includes_two in Hname. auto.
    + destruct Hf as [Hin Hname]. apply includes_two in Hname.
      apply in_flat_map in Hin as (field & Hfield & Hin). right. eauto.
  - intros (attr & Hwhere & Hargs).
    exists attr. split; [|now apply ruleExpression_iff].
    apply filter_In. split.
    + apply in_app_iff.
      destruct Hwhere as [[Hin Hname]|(field & Hfield & Hin & Hname)].
      * left. apply filter_In. split; [exact Hin | now apply includes_two].
      * right. apply filter_In. split; [|now apply includes_two].
        apply in_flat_map. eauto.
    + destruct Hargs as (first & second & rest & -> & _). reflexivity.
Qed.

Lemma isAuthMemberAccess_iff node :
  isAuthMemberAccess sdk node = true <->
  exists operand member,
    node = MemberAccessExpr operand member /\ isAuthInvocation sdk operand = true.
Proof.
  destruct node; simpl; split;
    try discriminate;
    try (intros (? & ? & H & _); discriminate).
  - intros H. eauto.
  - intros (? & ? & H & Hauth). injection H as -> _. exact Hauth.
Qed.

Lemma collectAuthRules_iff models node :
  In node (collectAuthRules sdk models) <->
  exists model rule,
    In model models /\ In rule (allExpressions model)
    /\ In node (streamAst rule) /\ isAuthMemberAccess sdk node = true.
Proof.
  unfold collectAuthRules. rewrite in_flat_map. split.
  - intros (model & Hmodel & Hin). apply in_flat_map in Hin as (rule & Hrule & Hin).
    apply filter_In in Hin as [Hin Hauth]. exists model, rule. auto.
  - intros (model & rule & Hmodel & Hrule & Hin & Hauth).
    exists model. split; [exact Hmodel|]. apply in_flat_map.
    exists rule. split; [exact Hrule|]. apply filter_In. auto.
Qed.

Lemma collectAuthRules_nonempty_iff models :
  collectAuthRules sdk models <> [] <-> someRuleAccessesAuth sdk models.
Proof.
  unfold someRuleAccessesAuth, accessesAuthMember. split.
  - intros Hne. destruct (collectAuthRules sdk models) as [|node rest] eqn:E;
      [congruence|].
    assert (Hin : In node (collectAuthRules sdk models)) by (rewrite E; now left).
    apply collectAuthRules_iff in Hin as (model & rule & Hmodel & Hrule & Hin & Hauth).
    apply isAuthMemberAccess_iff in Hauth as (operand & member & -> & Hauth).
    exists model, rule. split; [exact Hmodel|].
    split; [now apply allExpressions_iff|]. eauto.
  - intros (model & rule & Hmodel & Hrule & operand & member & Hin & Hauth) Hnil.
    assert (Hnode : In (MemberAccessExpr operand member) (collectAuthRules sdk models)).
    { apply collectAuthRules_iff. exists model, rule.
      split; [exact Hmodel|]. split; [now apply allExpressions_iff|].
      split; [exact Hin|]. exact Hauth. }
    rewrite Hnil in Hnode. destruct Hnode.
Qed.

Lemma upsert_nonempty eqk key f entries : upsert eqk key f entries <> [].
Proof.
  destruct entries as [|[k v] rest]; simpl; [discriminate|].
  destruct (eqk k key); discriminate.
Qed.

Lemma addPath_nonempty eqk path shape :
  path <> [] \/ shape <> [] -> addPath eqk path shape <> [].
Proof.
  destruct path as [|seg rest]; simpl.
  - intros [H|H]; congruence.
  - intros _. apply upsert_nonempty.
Qed.

Lemma addPaths_nonempty eqk paths shape :
  shape <> [] ->
  fold_left (fun acc p => addPath eqk p acc) paths shape <> [].
Proof.
  revert shape. induction paths as [|p paths IH]; intros shape Hne; simpl.
  - exact Hne.
  - apply IH. apply addPath_nonempty. now right.
Qed.

Lemma collectReferencePaths_auth node :
  isAuthMemberAccess sdk node = true ->
  exists member, collectReferencePaths sdk true node = [[member]].
Proof.
  intros Hauth. apply isAuthMemberAccess_iff in Hauth as (operand & member & -> & Hauth).
  exists member. simpl. now rewrite Hauth.
Qed.

(** Modelled select: the auth rules, each a member access on [auth()], need a
    member of the auth principal, so their select shape is not empty. *)
Lemma generateSelectForRules_auth rules :
  rules <> [] ->
  (forall node, In node rules -> isAuthMemberAccess sdk node = true) ->
  generateSelectForRules sdk rules true <> None.
Proof.
  intros Hne Hall. destruct rules as [|node rest]; [congruence|].
  destruct (collectReferencePaths_auth node (Hall node (or_introl eq_refl)))
    as [member Hpath].
  unfold generateSelectForRules. simpl. rewrite Hpath. simpl.
  match goal with
  | |- match ?shape with _ => _ end <> None =>
      assert (Hshape : shape <> []); [|destruct shape; congruence]
  end.
  apply addPaths_nonempty. discriminate.
Qed.

Lemma generateAuthSelector_iff models :
  generateAuthSelector sdk models <> None <-> someRuleAccessesAuth sdk models.
Proof.
  rewrite <- collectAuthRules_nonempty_iff. unfold generateAuthSelector.
  rewrite positive_length_negb.
  destruct (isEmpty (collectAuthRules sdk models)) eqn:E; simpl.
  - apply isEmpty_nil_iff in E. rewrite E. intuition congruence.
  - apply isEmpty_false_iff in E. split; [auto|]. intros _.
    apply generateSelectForRules_auth; [exact E|].
    intros node Hin. now apply collectAuthRules_iff in Hin as (? & ? & _ & _ & _ & H).
Qed.

(** [writeAuthSelector] writes one entry or nothing. *)
Lemma writeAuthSelector_yields models :
  exists ops,
    yields (writeAuthSelector sdk models) tt ops []
    /\ ((exists text, ops = [Write ("authSelector: " +++ text)])
        <-> someRuleAccessesAuth sdk models)
    /\ (ops = [] <-> ~ someRuleAccessesAuth sdk models).
Proof.
  pose proof (generateAuthSelector_iff models) as Hiff.
  unfold writeAuthSelector.
  destruct (generateAuthSelector sdk models) as [select|].
  - assert (Hsome : someRuleAccessesAuth sdk models) by (apply Hiff; discriminate).
    eexists. split; [apply yields_write|]. split; split; auto.
    + intros _. eexists. reflexivity.
    + discriminate.
    + contradiction.
  - assert (Hnone : ~ someRuleAccessesAuth sdk models)
      by (intros H; apply Hiff in H; congruence).
    exists []. split; [apply yields_ret|]. split; split; auto.
    + intros [text H]. discriminate.
    + contradiction.
Qed.

(** The initializer of the [policy] variable: the policy definitions of all
    models, their validation meta, then the auth selector. *)
Lemma policyInitializer_yields options models authOps :
  yields (writeAuthSelector sdk models) tt authOps [] ->
  exists policyOps validationOps stmts,
    yields (writePolicy options sdk models) tt policyOps stmts
    /\ yields (writeValidationMeta sdk models) tt validationOps []
    /\ yields (block (writePolicy options sdk models ;;
                      writeValidationMeta sdk models ;;
                      writeAuthSelector sdk models))
         tt [Block (policyOps ++ validationOps ++ authOps)] stmts.
Proof.
  intros Hrun.
  destruct (writePolicy_yields options sdk models) as (policyOps & stmts & Hpolicy).
  destruct (writeValidationMeta_yields sdk models) as (validationOps & Hvalidation).
  exists policyOps, validationOps, stmts.
  split; [exact Hpolicy|]. split; [exact Hvalidation|].
  unfold block.
  eapply yields_eq;
    [eapply yields_nested; eapply yields_bind;
     [exact Hpolicy | eapply yields_bind; [exact Hvalidation | exact Hrun]] | |].
  - reflexivity.
  - simpl. now rewrite app_nil_r.
Qed.

End AuthSelector.


(* ================================================================= *)
(** ** The generated source file *)

Section SourceFiles.

Variable options : PluginOptions.
Variable sdk : Sdk.

Lemma firstn_length_app {A} (l l' : list A) : firstn (length l) (l ++ l') = l.
Proof. induction l as [|x l IH]; simpl; [reflexivity | now rewrite IH]. Qed.

Lemma skipn_length_app {A} (l l' : list A) : skipn (length l) (l ++ l') = l'.
Proof. induction l as [|x l IH]; simpl; [reflexivity | exact IH]. Qed.

Lemma yields_addVariableStatement declarationKind name type initializer ops stmts :
  yields initializer tt ops stmts ->
  yields (addVariableStatement declarationKind name type initializer) tt []
         (VariableStatement declarationKind name type ops :: stmts).
Proof.
  intros Hinit st. unfold addVariableStatement. rewrite Hinit.
  unfold extend. simpl.
  now rewrite firstn_length_app, skipn_length_app, app_nil_r.
Qed.

Lemma writeImports_yields model output :
  exists stmts, yields (writeImports options sdk model output) tt [] stmts.
Proof.
  unfold writeImports. eexists.
  eapply yields_eq.
  - eapply yields_bind; [apply yields_addStatement|].
    apply (yields_forEach (enumNames sdk model) _ (fun _ => @nil WriterOp)
             (fun e => [ImportDeclaration [e]
                          (getPrismaClientImportSpec sdk output options)])).
    intros e _. apply yields_addStatement.
  - simpl. induction (enumNames sdk model); simpl; auto.
  - reflexivity.
Qed.

Lemma getFile_setFile path sf files : getFile path (setFile path sf files) = Some sf.
Proof.
  induction files as [|[p old] files IH]; simpl.
  - now rewrite String.eqb_refl.
  - destruct (String.eqb p path) eqn:E; simpl; rewrite E; [reflexivity | exact IH].
Qed.

End SourceFiles.

(** C6. The [authSelector] entry is written exactly when some policy rule
    expression of some model (the second argument of an [@@allow], [@@deny],
    [@allow] or [@deny] attribute with at least two arguments) holds a member
    access on [auth()]; otherwise nothing is written.  In the generated file
    the entry closes the initializer of [policy]: it comes after the policy
    definitions and the validation meta of all models, and it is computed
    once, from the complete list of data models of the schema. *)
Theorem auth_selector_iff_auth_member_access :
  forall options sdk st,
    (forall models,
        ((exists text,
             written (writeAuthSelector sdk models) st
             = [Write ("authSelector: " +++ text)])
         <-> someRuleAccessesAuth sdk models)
        /\ (written (writeAuthSelector sdk models) st = []
            <-> ~ someRuleAccessesAuth sdk models)
        /\ (writeAuthSelector sdk models st = Ok (tt, st)
            <-> ~ someRuleAccessesAuth sdk models)
        /\ (exists policyOps validationOps stmts,
              yields (writePolicy options sdk models) tt policyOps stmts
              /\ yields (writeValidationMeta sdk models) tt validationOps []
              /\ yields (block (writePolicy options sdk models ;;
                                writeValidationMeta sdk models ;;
                                writeAuthSelector sdk models))
                   tt
                   [Block (policyOps ++ validationOps
                             ++ written (writeAuthSelector sdk models) st)]
                   stmts))
    /\ (forall project model outputDir project',
          generate options sdk project model outputDir = Ok project' ->
          exists before after,
            getFile (path_join sdk outputDir "policy.ts") (sourceFiles project')
            = Some (RawStatement "/* eslint-disable */"
                      :: before
                      ++ VariableStatement "const" "policy" "PolicyDef"
                           [Block
                              (written (writePolicy options sdk (getDataModels sdk model)) st
                               ++ written (writeValidationMeta sdk (getDataModels sdk model)) st
                               ++ written (writeAuthSelector sdk (getDataModels sdk model)) st)]
                      :: after
                      ++ [RawStatement "export default policy"])).
Proof.
  intros options sdk st. split.
  - intros models.
    destruct (writeAuthSelector_yields sdk models) as (ops & Hrun & Hentry & Hnone).
    rewrite (written_yields _ _ _ st Hrun).
    split; [exact Hentry|]. split; [exact Hnone|]. split.
    + rewrite <- Hnone, Hrun. split.
      * intros Hsame. injection Hsame as Hsame.
        destruct ops as [|op rest]; [reflexivity|]. exfalso.
        apply (f_equal writer) in Hsame.
        eapply writer_not_extended in Hsame; eauto.
      * intros ->. now rewrite extend_nil.
    + apply policyInitializer_yields. exact Hrun.
  - intros project model out project'.
    destruct (writeImports_yields options sdk model out) as (imports & Himports).
    destruct (writeAuthSelector_yields sdk (getDataModels sdk model))
      as (authOps & Hauth & _).
    destruct (policyInitializer_yields sdk options (getDataModels sdk model) authOps Hauth)
      as (policyOps & validationOps & stmts & Hpolicy & Hvalidation & Hblock).
    rewrite (written_yields _ _ _ st Hpolicy), (written_yields _ _ _ st Hvalidation),
      (written_yields _ _ _ st Hauth).
    assert (Hrun : yields (writeSourceFile options sdk model out) tt []
                     (RawStatement "/* eslint-disable */"
                        :: imports
                        ++ VariableStatement "const" "policy" "PolicyDef"
                             [Block (policyOps ++ validationOps ++ authOps)]
                        :: stmts ++ [RawStatement "export default policy"])).
    { unfold writeSourceFile. eapply yields_eq.
      - eapply yields_bind; [apply yields_addStatement|].
        eapply yields_bind; [exact Himports|].
        eapply yields_bind; [|apply yields_addStatement].
        apply yields_addVariableStatement. exact Hblock.
      - reflexivity.
      - reflexivity. }
    unfold generate. rewrite Hrun. simpl. intros Hgen. injection Hgen as <-.
    exists imports, stmts. simpl. now rewrite getFile_setFile.
Qed.

(** On the sample schema the initializer of [policy] closes with the auth
    selector [{id: true}], read off the [Post] model. *)
Lemma auth_selector_in_sample_file :
  exists before after,
    getFile (path_join Sample.sdk "out" "policy.ts") (sourceFiles sampleProject)
    = Some (RawStatement "/* eslint-disable */"
              :: before
              ++ VariableStatement "const" "policy" "PolicyDef"
                   [Block
                      (written (writePolicy Sample.defaults Sample.sdk
                                  (getDataModels Sample.sdk Sample.schema)) Sample.start
                       ++ written (writeValidationMeta Sample.sdk
                                     (getDataModels Sample.sdk Sample.schema)) Sample.start
                       ++ written (writeAuthSelector Sample.sdk
                                     (getDataModels Sample.sdk Sample.schema)) Sample.start)]
              :: after
              ++ [RawStatement "export default policy"]).
Proof.
  apply (proj2 (auth_selector_iff_auth_member_access Sample.defaults Sample.sdk
                  Sample.start)
           {| sourceFiles := []; savedFiles := [] |} Sample.schema "out" sampleProject).
  vm_compute. reflexivity.
Defined.

(* ================================================================= *)
(** ** The generator on the sample schema *)

(** The end-to-end example: the auth selector of the schema is [{id: true}]. *)
Example auth_selector_of_sample :
  generateAuthSelector Sample.sdk (Sample.dataModels Sample.schema)
  = Some [("id", SelTrue)]
  /\ written (writeAuthSelector Sample.sdk (Sample.dataModels Sample.schema)) Sample.start
     = [Write ("authSelector: {" +++ dquote +++ "id" +++ dquote +++ ":true},")].
Proof. split; reflexivity. Qed.

(** [Post] can be checked on the create input; its checker is the allow rule. *)
Example input_checker_of_Post :
  writeCreateInputChecker Sample.sdk Sample.Post Sample.start
  = Ok (tt, {| writer := [Write "inputChecker: Post_create_input,"];
               sourceFile :=
                 [FunctionStatement
                    {| fnName := "Post_create_input";
                       fnReturnType := "boolean";
                       fnParameters := [("input", "any"); ("context", "QueryContext")];
                       fnStatements :=
                         ["const user: any = context.user ?? null;";
                          "return (user?.id == input?.authorId)"] |}] |}).
Proof. reflexivity. Qed.

(** [Draft] cannot: its create rule reads a field with a default value. *)
Example no_input_checker_for_Draft :
  canCheckCreateBasedOnInput Sample.sdk Sample.Draft
    (getPolicyExpressions Sample.sdk (OfModel Sample.Draft) Allow Create false)
    (getPolicyExpressions Sample.sdk (OfModel Sample.Draft) Deny Create false)
  = false
  /\ writeCreateInputChecker Sample.sdk Sample.Draft Sample.start = Ok (tt, Sample.start).
Proof. split; reflexivity. Qed.

(** Asked for without any rule, the field read checker throws. *)
Example field_read_checker_without_rule :
  generateFieldReadCheckerFunction Sample.sdk Sample.Comment (Sample.plain "hidden")
    [] [] Sample.start
  = Throw "should not happen".
Proof. reflexivity. Qed.

(** The field-level section of [Comment]. *)
Example field_level_of_Comment :
  written (writeFieldLevelDefs Sample.sdk Sample.Comment) Sample.start
  = [Write "fieldLevel:";
     InlineBlock
       [Write "read:";
        Block
          [Write "checker:";
           InlineBlock [Write "content: Comment$content_read,"];
           WriteLine ",";
           Write ("selector: {" +++ dquote +++ "ownerId" +++ dquote +++ ":true,"
                  +++ dquote +++ "hidden" +++ dquote +++ ":true},");
           Write "overrideGuard:";
           InlineBlock [Write "content: Comment$content$override_read,"];
           WriteLine ","];
        WriteLine ","];
     WriteLine ","].
Proof. reflexivity. Qed.

(** Without the option no model-level definition of the schema holds a
    permission checker; the update guard of [Comment] is the constant
    [false]. *)
Example model_level_of_Comment :
  written (writeModelLevelDefs Sample.defaults Sample.sdk Sample.Comment) Sample.start
  = [Write "modelLevel:";
     InlineBlock
       [Write "read:"; InlineBlock [Write "guard: true,"]; WriteLine ",";
        Write "create:";
        InlineBlock [Write "guard: Comment_create,";
                     Write "inputChecker: Comment_create_input,"];
        WriteLine ",";
        Write "update:"; InlineBlock [Write "guard: false,"]; WriteLine ",";
        Write "postUpdate:"; InlineBlock [Write "guard: true,"]; WriteLine ",";
        Write "delete:"; InlineBlock [Write "guard: false,"]];
     WriteLine ","].
Proof. reflexivity. Qed.

(** The layout of the generated file: the header, the imports, the [policy]
    variable, the generated functions, the default export. *)
Example generated_file_layout :
  exists sf policy,
    generate Sample.defaults Sample.sdk {| sourceFiles := []; savedFiles := [] |}
      Sample.schema "out"
    = Ok {| sourceFiles := [("out/policy.ts", sf)]; savedFiles := [] |}
    /\ firstn 3 sf
       = [RawStatement "/* eslint-disable */";
          ImportDeclaration
            ["type QueryContext"; "type CrudContract"; "allFieldsEqual";
             "type PolicyDef"; "type CheckerContext"; "type CheckerConstraint"]
            "@zenstackhq/runtime";
          VariableStatement "const" "policy" "PolicyDef" [Block policy]]
    /\ map (fun s => match s with FunctionStatement f => fnName f | _ => "" end)
           (skipn 3 sf)
       = ["Post_read"; "Post_create"; "Post_create_input"; "Post_update";
          "Post_postUpdate"; "Post_delete"; "Comment_create"; "Comment_create_input";
          "Comment$content_read"; "Comment$content$override_read"; "Draft_create"; ""]
    /\ last sf (RawStatement "") = RawStatement "export default policy".
Proof.
  eexists; eexists. split; [lazy; reflexivity|].
  split; [reflexivity|]. split; reflexivity.
Qed.

(* ================================================================= *)
(** ** More on the field-level records *)

Section FieldRecords.

Variable sdk : Sdk.

Lemma recordSet_keys_once key value r :
  NoDup (recordKeys r) -> NoDup (recordKeys (recordSet key value r)).
Proof.
  unfold recordKeys. induction r as [|[k v] r IH]; simpl; intros Hnd.
  - constructor; [intros [] | constructor].
  - inversion Hnd as [|? ? Hnotin Hrest]; subst.
    destruct (String.eqb_spec k key) as [->|Hne]; simpl.
    + constructor; assumption.
    + constructor; [|now apply IH].
      intros Hin. apply (recordSet_keys key value r k) in Hin as [Heq|Hin];
        [congruence | contradiction].
Qed.

Lemma recordSet_entry key value r k v :
  In (k, v) (recordSet key value r) -> (k = key /\ v = value) \/ In (k, v) r.
Proof.
  induction r as [|[k0 v0] r IH]; simpl.
  - intros [H|[]]. injection H as <- <-. auto.
  - destruct (String.eqb_spec k0 key) as [->|Hne]; simpl.
    + intros [H|H]; [injection H as <- <-; auto | auto].
    + intros [H|H]; [auto|]. apply IH in H as [H|H]; auto.
Qed.

Lemma defined_later (stmts more : list Statement) v :
  (exists f, In (FunctionStatement f) stmts /\ fnName f = v) ->
  exists f, In (FunctionStatement f) (stmts ++ more) /\ fnName f = v.
Proof. intros (f & Hin & Hname). exists f. split; [apply in_or_app; now left | exact Hname]. Qed.

Lemma flat_map_snoc {A B} (f : A -> list B) xs x :
  flat_map f (xs ++ [x]) = flat_map f xs ++ f x.
Proof. rewrite flat_map_app. simpl. now rewrite app_nil_r. Qed.

Lemma no_rule_no_expressions operation field :
  ~ hasRule sdk operation field ->
  getPolicyExpressions sdk (OfField field) Allow operation false = []
  /\ getPolicyExpressions sdk (OfField field) Deny operation false = [].
Proof.
  unfold hasRule. intros Hno.
  destruct (getPolicyExpressions sdk (OfField field) Allow operation false);
    destruct (getPolicyExpressions sdk (OfField field) Deny operation false);
    try (split; reflexivity);
    exfalso; apply Hno; (left; discriminate) || (right; discriminate).
Qed.

(** One iteration keeps the invariant of the read loop. *)
Lemma fieldReadStep_invariant model done vars stmts0 field :
  ReadLoopInvariant sdk done vars stmts0 ->
  exists vars' stmts,
    yields (fieldReadStep sdk model vars field) vars' [] stmts
    /\ ReadLoopInvariant sdk (done ++ [field]) vars' (stmts0 ++ stmts).
Proof.
  intros [Hc Ho Hincl Ha Hd Hcdef Hodef].
  destruct (hasRule_dec sdk Read field) as [Hrule|Hno].
  - destruct (fieldReadStep_rule sdk model vars field Hrule) as (checker & _ & Hrun).
    eexists; eexists. split; [exact Hrun|].
    constructor; simpl.
    + now apply recordSet_keys_once.
    + destruct (isEmpty _); [exact Ho | now apply recordSet_keys_once].
    + intros k Hk. apply recordSet_keys.
      destruct (isEmpty _); [right; now apply Hincl|].
      apply recordSet_keys in Hk as [->|Hk]; [now left | right; now apply Hincl].
    + now rewrite flat_map_snoc, Ha.
    + now rewrite flat_map_snoc, Hd.
    + intros k v Hin. apply recordSet_entry in Hin as [[_ ->]|Hin].
      * exists checker. split; [|reflexivity]. apply in_or_app. right. now left.
      * apply defined_later. eapply Hcdef; eassumption.
    + intros k v Hin. destruct (isEmpty _).
      * apply defined_later. eapply Hodef; eassumption.
      * apply recordSet_entry in Hin as [[_ ->]|Hin].
        -- eexists. split; [|reflexivity]. apply in_or_app. right. right. now left.
        -- apply defined_later. eapply Hodef; eassumption.
  - exists vars, []. rewrite fieldReadStep_skip by exact Hno.
    split; [apply yields_ret|].
    destruct (no_rule_no_expressions Read field Hno) as [Hna Hnd].
    constructor; auto.
    + now rewrite flat_map_snoc, Hna, app_nil_r.
    + now rewrite flat_map_snoc, Hnd, app_nil_r.
    + intros k v Hin. apply defined_later. eapply Hcdef; eassumption.
    + intros k v Hin. apply defined_later. eapply Hodef; eassumption.
Qed.

(** The read loop keeps its invariant. *)
Lemma fieldReadLoop_invariant model fields :
  forall done vars stmts0,
    ReadLoopInvariant sdk done vars stmts0 ->
    exists vars' stmts,
      yields (forOf fields (fieldReadStep sdk model) vars) vars' [] stmts
      /\ ReadLoopInvariant sdk (done ++ fields) vars' (stmts0 ++ stmts).
Proof.
  induction fields as [|field fields IH]; intros done vars stmts0 Hinv.
  - exists vars, []. split; [apply yields_ret|]. now rewrite !app_nil_r.
  - destruct (fieldReadStep_invariant model done vars stmts0 field Hinv)
      as (vars1 & stmts1 & Hstep & Hinv1).
    destruct (IH _ _ _ Hinv1) as (vars2 & stmts2 & Hloop & Hinv2).
    exists vars2, (stmts1 ++ stmts2). split.
    + simpl. eapply yields_eq; [eapply yields_bind; eassumption| |]; reflexivity.
    + rewrite <- app_assoc in Hinv2. simpl in Hinv2. now rewrite app_assoc.
Qed.

Lemma readLoopInvariant_start : ReadLoopInvariant sdk [] noReadVars [].
Proof.
  constructor; simpl; try constructor; try reflexivity;
    try (intros k v []); intros k [].
Qed.

(** A field with an update rule gets its guard, and its override guard when
    it has override-marked allow rules. *)
Lemma fieldUpdateStep_rule model vars field :
  hasRule sdk Update field ->
  let allows := getPolicyExpressions sdk (OfField field) Allow Update false in
  let denies := getPolicyExpressions sdk (OfField field) Deny Update false in
  let overrideAllows := getPolicyExpressions sdk (OfField field) Allow Update true in
  let guard := queryGuard sdk model Update allows denies (Some field) false in
  let overrideGuard :=
    queryGuard sdk model Update overrideAllows denies (Some field) true in
  yields (fieldUpdateStep sdk model vars field)
    {| guards := recordSet (fieldName field) (fnName guard) (guards vars);
       updateOverrideGuards :=
         if isEmpty overrideAllows then updateOverrideGuards vars
         else recordSet (fieldName field) (fnName overrideGuard)
                        (updateOverrideGuards vars) |}
    []
    (FunctionStatement guard
       :: if isEmpty overrideAllows then [] else [FunctionStatement overrideGuard]).
Proof.
  intros Hrule allows denies overrideAllows guard overrideGuard.
  assert (Hskip : isEmpty denies && isEmpty allows = false).
  { destruct (isEmpty denies && isEmpty allows) eqn:E; [|reflexivity].
    apply skip_iff_no_rule in E. contradiction. }
  unfold fieldUpdateStep, generateQueryGuardFunction.
  fold allows denies overrideAllows. rewrite Hskip.
  rewrite positive_length_negb.
  destruct (isEmpty overrideAllows); simpl; summarize.
Qed.

Lemma fieldUpdateStep_invariant model vars stmts0 field :
  UpdateLoopInvariant vars stmts0 ->
  exists vars' stmts,
    yields (fieldUpdateStep sdk model vars field) vars' [] stmts
    /\ UpdateLoopInvariant vars' (stmts0 ++ stmts).
Proof.
  intros [Hg Ho Hincl Hgdef Hodef].
  destruct (hasRule_dec sdk Update field) as [Hrule|Hno].
  - pose proof (fieldUpdateStep_rule model vars field Hrule) as Hrun.
    simpl in Hrun. eexists; eexists. split; [exact Hrun|].
    constructor; simpl.
    + now apply recordSet_keys_once.
    + destruct (isEmpty _); [exact Ho | now apply recordSet_keys_once].
    + intros k Hk. apply recordSet_keys.
      destruct (isEmpty _); [right; now apply Hincl|].
      apply recordSet_keys in Hk as [->|Hk]; [now left | right; now apply Hincl].
    + intros k v Hin. apply recordSet_entry in Hin as [[_ ->]|Hin].
      * eexists. split; [|reflexivity]. apply in_or_app. right. now left.
      * apply defined_later. eapply Hgdef; eassumption.
    + intros k v Hin. destruct (isEmpty _).
      * apply defined_later. eapply Hodef; eassumption.
      * apply recordSet_entry in Hin as [[_ ->]|Hin].
        -- eexists. split; [|reflexivity]. apply in_or_app. right. right. now left.
        -- apply defined_later. eapply Hodef; eassumption.
  - exists vars, []. rewrite fieldUpdateStep_skip by exact Hno.
    split; [apply yields_ret|].
    constructor; auto.
    + intros k v Hin. apply defined_later. eapply Hgdef; eassumption.
    + intros k v Hin. apply defined_later. eapply Hodef; eassumption.
Qed.

Lemma fieldUpdateLoop_invariant model fields :
  forall vars stmts0,
    UpdateLoopInvariant vars stmts0 ->
    exists vars' stmts,
      yields (forOf fields (fieldUpdateStep sdk model) vars) vars' [] stmts
      /\ UpdateLoopInvariant vars' (stmts0 ++ stmts).
Proof.
  induction fields as [|field fields IH]; intros vars stmts0 Hinv.
  - exists vars, []. split; [apply yields_ret|]. now rewrite app_nil_r.
  - destruct (fieldUpdateStep_invariant model vars stmts0 field Hinv)
      as (vars1 & stmts1 & Hstep & Hinv1).
    destruct (IH _ _ Hinv1) as (vars2 & stmts2 & Hloop & Hinv2).
    exists vars2, (stmts1 ++ stmts2). split.
    + simpl. eapply yields_eq; [eapply yields_bind; eassumption| |]; reflexivity.
    + now rewrite app_assoc.
Qed.

Lemma updateLoopInvariant_start : UpdateLoopInvariant noUpdateVars [].
Proof.
  constructor; simpl; try constructor; try (intros k v []); intros k [].
Qed.

End FieldRecords.

(* ================================================================= *)
(** ** Properties of the field-level definitions *)

(** X1. The [checker] and [overrideGuard] records of the field-level [read]
    section hold each field name once, the field names of [checker] are the
    names of the fields that carry a read rule, and a field listed under
    [overrideGuard] is listed under [checker]. *)
Theorem field_read_records_well_formed :
  forall sdk model,
    exists vars stmts,
      yields (writeFieldReadDef sdk model) tt (fieldReadOps sdk vars) stmts
      /\ NoDup (recordKeys (fieldCheckers vars))
      /\ NoDup (recordKeys (readOverrideGuards vars))
      /\ incl (recordKeys (readOverrideGuards vars)) (recordKeys (fieldCheckers vars))
      /\ (forall k, In k (recordKeys (fieldCheckers vars)) <->
                    exists f, In f (modelFields model) /\ fieldName f = k
                              /\ hasRule sdk Read f).
Proof.
  intros sdk model.
  destruct (writeFieldReadDef_yields sdk model) as (vars & stmts & Hloop & Hrun).
  destruct (fieldReadLoop_invariant sdk model (modelFields model) [] noReadVars []
              (readLoopInvariant_start sdk)) as (vars1 & stmts1 & Hloop1 & Hinv).
  destruct (fieldReadLoop_completes sdk model (modelFields model) noReadVars)
    as (vars2 & stmts2 & Hloop2 & Hkeys & _).
  destruct (yields_inj _ _ _ _ _ _ _ Hloop Hloop1) as (<- & _ & _).
  destruct (yields_inj _ _ _ _ _ _ _ Hloop Hloop2) as (<- & _ & _).
  destruct Hinv as [Hc Ho Hincl _ _ _ _].
  exists vars, stmts. repeat split; auto.
  - intros Hk. apply Hkeys in Hk as [[]|H]. exact H.
  - intros H. apply Hkeys. now right.
Qed.

(** X2. The same for the field-level [update] section: the [guard] and
    [overrideGuard] records hold each field name once, the field names of
    [guard] are the names of the fields that carry an update rule, and a field
    listed under [overrideGuard] is listed under [guard]. *)
Theorem field_update_records_well_formed :
  forall sdk model,
    exists vars stmts,
      yields (writeFieldUpdateDef sdk model) tt (fieldUpdateOps vars) stmts
      /\ NoDup (recordKeys (guards vars))
      /\ NoDup (recordKeys (updateOverrideGuards vars))
      /\ incl (recordKeys (updateOverrideGuards vars)) (recordKeys (guards vars))
      /\ (forall k, In k (recordKeys (guards vars)) <->
                    exists f, In f (modelFields model) /\ fieldName f = k
                              /\ hasRule sdk Update f).
Proof.
  intros sdk model.
  destruct (writeFieldUpdateDef_yields sdk model) as (vars & stmts & Hloop & Hrun).
  destruct (fieldUpdateLoop_invariant sdk model (modelFields model) noUpdateVars []
              updateLoopInvariant_start) as (vars1 & stmts1 & Hloop1 & Hinv).
  destruct (fieldUpdateLoop_completes sdk model (modelFields model) noUpdateVars)
    as (vars2 & stmts2 & Hloop2 & Hkeys & _).
  destruct (yields_inj _ _ _ _ _ _ _ Hloop Hloop1) as (<- & _ & _).
  destruct (yields_inj _ _ _ _ _ _ _ Hloop Hloop2) as (<- & _ & _).
  destruct Hinv as [Hg Ho Hincl _ _].
  exists vars, stmts. repeat split; auto.
  - intros Hk. apply Hkeys in Hk as [[]|H]. exact H.
  - intros H. apply Hkeys. now right.
Qed.

(** X3. Every function name written in the field-level sections is the name
    of a function that the same call added to the source file: the entries of
    [checker] and [overrideGuard] of [read], and of [guard] and
    [overrideGuard] of [update]. *)
Theorem field_level_entries_defined :
  forall sdk model,
    (exists vars stmts,
        yields (writeFieldReadDef sdk model) tt (fieldReadOps sdk vars) stmts
        /\ forall k v,
             In (k, v) (fieldCheckers vars) \/ In (k, v) (readOverrideGuards vars) ->
             exists f, In (FunctionStatement f) stmts /\ fnName f = v)
    /\ (exists vars stmts,
          yields (writeFieldUpdateDef sdk model) tt (fieldUpdateOps vars) stmts
          /\ forall k v,
               In (k, v) (guards vars) \/ In (k, v) (updateOverrideGuards vars) ->
               exists f, In (FunctionStatement f) stmts /\ fnName f = v).
Proof.
  intros sdk model. split.
  - destruct (writeFieldReadDef_yields sdk model) as (vars & stmts & Hloop & Hrun).
    destruct (fieldReadLoop_invariant sdk model (modelFields model) [] noReadVars []
                (readLoopInvariant_start sdk)) as (vars1 & stmts1 & Hloop1 & Hinv).
    destruct (yields_inj _ _ _ _ _ _ _ Hloop Hloop1) as (<- & _ & <-).
    destruct Hinv as [_ _ _ _ _ Hcdef Hodef].
    exists vars, stmts. split; [exact Hrun|].
    intros k v [Hin|Hin]; [eapply Hcdef | eapply Hodef]; eassumption.
  - destruct (writeFieldUpdateDef_yields sdk model) as (vars & stmts & Hloop & Hrun).
    destruct (fieldUpdateLoop_invariant sdk model (modelFields model) noUpdateVars []
                updateLoopInvariant_start) as (vars1 & stmts1 & Hloop1 & Hinv).
    destruct (yields_inj _ _ _ _ _ _ _ Hloop Hloop1) as (<- & _ & <-).
    destruct Hinv as [_ _ _ Hgdef Hodef].
    exists vars, stmts. split; [exact Hrun|].
    intros k v [Hin|Hin]; [eapply Hgdef | eapply Hodef]; eassumption.
Qed.

(** X4. The [selector] of the field-level [read] section is computed from the
    read rules of all fields of the model: the allow rules of every field in
    field order, followed by the deny rules of every field. *)
Theorem field_read_selector_rules :
  forall sdk model,
    exists vars stmts,
      yields (writeFieldReadDef sdk model) tt (fieldReadOps sdk vars) stmts
      /\ allFieldsAllows vars ++ allFieldsDenies vars
         = flat_map (fun f => getPolicyExpressions sdk (OfField f) Allow Read false)
                    (modelFields model)
             ++ flat_map (fun f => getPolicyExpressions sdk (OfField f) Deny Read false)
                         (modelFields model).
Proof.
  intros sdk model.
  destruct (writeFieldReadDef_yields sdk model) as (vars & stmts & Hloop & Hrun).
  destruct (fieldReadLoop_invariant sdk model (modelFields model) [] noReadVars []
              (readLoopInvariant_start sdk)) as (vars1 & stmts1 & Hloop1 & Hinv).
  destruct (yields_inj _ _ _ _ _ _ _ Hloop Hloop1) as (<- & _ & _).
  destruct Hinv as [_ _ _ Ha Hd _ _].
  exists vars, stmts. split; [exact Hrun|]. simpl in Ha, Hd. now rewrite Ha, Hd.
Qed.

(** X5. A field with an update rule and at least one override-marked update
    allow rule gets two functions: its guard, the query guard of all its
    update allow and deny rules, and its override guard, the query guard of
    the override-marked allow rules and the same deny rules.  Both are
    recorded under the name of the field. *)
Theorem field_update_override_guard :
  forall sdk model vars field st,
    let allows := getPolicyExpressions sdk (OfField field) Allow Update false in
    let denies := getPolicyExpressions sdk (OfField field) Deny Update false in
    let overrideAllows := getPolicyExpressions sdk (OfField field) Allow Update true in
    let guard := queryGuard sdk model Update allows denies (Some field) false in
    let overrideGuard :=
      queryGuard sdk model Update overrideAllows denies (Some field) true in
    hasRule sdk Update field ->
    overrideAllows <> [] ->
    fieldUpdateStep sdk model vars field st
    = Ok ({| guards := recordSet (fieldName field) (fnName guard) (guards vars);
             updateOverrideGuards :=
               recordSet (fieldName field) (fnName overrideGuard)
                         (updateOverrideGuards vars) |},
          {| writer := writer st;
             sourceFile := sourceFile st ++ [FunctionStatement guard;
                                             FunctionStatement overrideGuard] |}).
Proof.
  intros sdk model vars field st allows denies overrideAllows guard overrideGuard
    Hrule Hover.
  pose proof (fieldUpdateStep_rule sdk model vars field Hrule) as Hrun.
  simpl in Hrun. fold allows denies overrideAllows guard overrideGuard in Hrun.
  apply isEmpty_false_iff in Hover. rewrite Hover in Hrun.
  rewrite Hrun. unfold extend. now rewrite app_nil_r.
Qed.

(** A [title] field with an override-marked update allow rule and an update
    deny rule. *)
Lemma field_update_override_guard_on_title :
  fieldUpdateStep Sample.sdk Sample.Post noUpdateVars titleWithUpdateRules Sample.start
  = Ok ({| guards :=
             recordSet (fieldName titleWithUpdateRules)
               (fnName
                  (queryGuard Sample.sdk Sample.Post Update
                     (getPolicyExpressions Sample.sdk (OfField titleWithUpdateRules)
                        Allow Update false)
                     (getPolicyExpressions Sample.sdk (OfField titleWithUpdateRules)
                        Deny Update false)
                     (Some titleWithUpdateRules) false))
               (guards noUpdateVars);
           updateOverrideGuards :=
             recordSet (fieldName titleWithUpdateRules)
               (fnName
                  (queryGuard Sample.sdk Sample.Post Update
                     (getPolicyExpressions Sample.sdk (OfField titleWithUpdateRules)
                        Allow Update true)
                     (getPolicyExpressions Sample.sdk (OfField titleWithUpdateRules)
                        Deny Update false)
                     (Some titleWithUpdateRules) true))
               (updateOverrideGuards noUpdateVars) |},
        {| writer := writer Sample.start;
           sourceFile :=
             sourceFile Sample.start
               ++ [FunctionStatement
                     (queryGuard Sample.sdk Sample.Post Update
                        (getPolicyExpressions Sample.sdk (OfField titleWithUpdateRules)
                           Allow Update false)
                        (getPolicyExpressions Sample.sdk (OfField titleWithUpdateRules)
                           Deny Update false)
                        (Some titleWithUpdateRules) false);
                   FunctionStatement
                     (queryGuard Sample.sdk Sample.Post Update
                        (getPolicyExpressions Sample.sdk (OfField titleWithUpdateRules)
                           Allow Update true)
                        (getPolicyExpressions Sample.sdk (OfField titleWithUpdateRules)
                           Deny Update false)
                        (Some titleWithUpdateRules) true)] |}).
Proof.
  apply (field_update_override_guard Sample.sdk Sample.Post noUpdateVars
           titleWithUpdateRules Sample.start).
  - left. discriminate.
  - discriminate.
Defined.

Lemma fieldReadReturn_body sdk allows denies :
  allows <> [] \/ denies <> [] ->
  fieldReadReturn sdk allows denies = Ok (fieldReadBody sdk allows denies).
Proof.
  intros Hrule. unfold fieldReadReturn, fieldReadBody, orCombined.
  destruct denies as [|d denies], allows as [|a allows]; simpl.
  - destruct Hrule; congruence.
  - reflexivity.
  - reflexivity.
  - now rewrite !append_assoc.
Qed.

(** X6. Given at least one rule, the field read checker is the function
    [Model$field_read] of [input] and [context] returning a boolean; after
    the statements that normalize the auth reference it returns the OR of the
    transformed allow rules, the negation of the OR of the transformed deny
    rules, or the conjunction of the two with the negation first. *)
Theorem field_read_checker_function :
  forall sdk container field allows denies st,
    allows <> [] \/ denies <> [] ->
    let f :=
      {| fnName := modelName container +++ "$" +++ fieldName field +++ "_read";
         fnReturnType := "boolean";
         fnParameters := [("input", "any"); ("context", "QueryContext")];
         fnStatements :=
           generateNormalizedAuthRef sdk container allows denies
             ++ [fieldReadBody sdk allows denies] |} in
    generateFieldReadCheckerFunction sdk container field allows denies st
    = Ok (f, {| writer := writer st;
                sourceFile := sourceFile st ++ [FunctionStatement f] |}).
Proof.
  intros sdk container field allows denies st Hrule f.
  unfold generateFieldReadCheckerFunction, bind, liftResult.
  now rewrite (fieldReadReturn_body sdk allows denies Hrule).
Qed.

(** The read checker of the sample [content] field. *)
Lemma field_read_checker_function_on_content :
  generateFieldReadCheckerFunction Sample.sdk Sample.Comment Sample.content
    (getPolicyExpressions Sample.sdk (OfField Sample.content) Allow Read false)
    (getPolicyExpressions Sample.sdk (OfField Sample.content) Deny Read false)
    Sample.start
  = Ok ({| fnName := "Comment$content_read";
           fnReturnType := "boolean";
           fnParameters := [("input", "any"); ("context", "QueryContext")];
           fnStatements :=
             ["const user: any = context.user ?? null;";
              "return !((input?.hidden == true)) && ((user?.id == input?.ownerId))"] |},
        {| writer := [];
           sourceFile :=
             [FunctionStatement
                {| fnName := "Comment$content_read";
                   fnReturnType := "boolean";
                   fnParameters := [("input", "any"); ("context", "QueryContext")];
                   fnStatements :=
                     ["const user: any = context.user ?? null;";
                      "return !((input?.hidden == true)) && ((user?.id == input?.ownerId))"]
                |}] |}).
Proof.
  apply (field_read_checker_function Sample.sdk Sample.Comment Sample.content
           (getPolicyExpressions Sample.sdk (OfField Sample.content) Allow Read false)
           (getPolicyExpressions Sample.sdk (OfField Sample.content) Deny Read false)
           Sample.start).
  left. discriminate.
Defined.

(* ================================================================= *)
(** ** Properties of the model-level definitions *)

Section ModelLevelEntries.

Variable options : PluginOptions.
Variable sdk : Sdk.

Lemma writePermissionChecker_under_option model kind policies allows denies :
  generatePermissionChecker options = Some (OptBool true) ->
  exists text stmts,
    yields (writePermissionChecker options sdk model kind policies allows denies) tt
           [Write ("permissionChecker: " +++ text)] stmts
    /\ (forall b, policies kind = Some b -> text = boolText b +++ "," /\ stmts = []).
Proof.
  intros Hopt. unfold writePermissionChecker, generatePermissionCheckerFunction.
  rewrite Hopt. simpl.
  destruct (policies kind) as [constant|].
  - eexists; eexists. split; [summarize|]. intros b Hb. injection Hb as <-. auto.
  - destruct (isUpdate kind && isEmpty allows); [destruct (isEmpty _)|];
      (eexists; eexists; split; [summarize | intros b Hb; discriminate]).
Qed.

Lemma writeCommonModelDef_postUpdate model policies :
  exists g stmts,
    yields (writeCommonModelDef options sdk model PostUpdate policies) tt
           [Write ("guard: " +++ g)] stmts.
Proof.
  unfold writeCommonModelDef. simpl.
  destruct (writePolicyGuard_yields sdk model PostUpdate policies
              (getPolicyExpressions sdk (OfModel model) Allow PostUpdate false)
              (getPolicyExpressions sdk (OfModel model) Deny PostUpdate false))
    as (g & stmts & Hguard).
  exists g, (stmts ++ []).
  eapply yields_eq; [eapply yields_bind; [exact Hguard | apply yields_ret] | |];
    reflexivity.
Qed.

Lemma writeCreateInputChecker_entry model :
  exists ops stmts,
    yields (writeCreateInputChecker sdk model) tt ops stmts
    /\ (ops = [] \/ exists text, ops = [Write ("inputChecker: " +++ text)]).
Proof.
  unfold writeCreateInputChecker, generateCreateInputCheckerFunction.
  destruct (canCheckCreateBasedOnInput _ _ _ _).
  - eexists; eexists. split; [summarize|]. right. eexists. reflexivity.
  - exists [], []. split; [apply yields_ret | now left].
Qed.

Lemma writePostUpdatePreValueSelector_entry model :
  exists ops,
    yields (writePostUpdatePreValueSelector sdk model) tt ops []
    /\ (ops = [] \/ exists text, ops = [WriteLine ("preUpdateSelector: " +++ text)]).
Proof.
  unfold writePostUpdatePreValueSelector.
  destruct (generateSelectForRules _ _ _).
  - eexists. split; [summarize|]. right. eexists. reflexivity.
  - exists []. split; [apply yields_ret | now left].
Qed.

End ModelLevelEntries.

(** X7. With the option [generatePermissionChecker] exactly [true], the
    definition of every operation kind but [postUpdate] is its guard entry
    followed by one [permissionChecker] entry, which is the constant of the
    policy analysis when the analysis gives one; the definition of
    [postUpdate] is its guard entry alone. *)
Theorem permission_checker_under_option :
  forall options sdk model kind policies st,
    generatePermissionChecker options = Some (OptBool true) ->
    exists g text,
      written (writeCommonModelDef options sdk model kind policies) st
      = (if isPostUpdate kind then [Write ("guard: " +++ g)]
         else [Write ("guard: " +++ g); Write ("permissionChecker: " +++ text)])
      /\ (forall b, policies kind = Some b -> isPostUpdate kind = false ->
                    text = boolText b +++ ",").
Proof.
  intros options sdk model kind policies st Hopt.
  destruct (isPostUpdate kind) eqn:Hkind.
  - destruct kind; try discriminate.
    destruct (writeCommonModelDef_postUpdate options sdk model policies)
      as (g & stmts & Hrun).
    exists g, "". split; [now apply written_yields with (stmts := stmts)|].
    intros b _ Habs. discriminate.
  - unfold writeCommonModelDef. rewrite Hkind. simpl.
    set (allows := getPolicyExpressions sdk (OfModel model) Allow kind false).
    set (denies := getPolicyExpressions sdk (OfModel model) Deny kind false).
    destruct (writePolicyGuard_yields sdk model kind policies allows denies)
      as (g & s1 & Hguard).
    destruct (writePermissionChecker_under_option options sdk model kind policies
                allows denies Hopt) as (text & s2 & Hchecker & Hconst).
    exists g, text. split.
    + apply written_yields with (stmts := s1 ++ s2).
      eapply yields_eq; [eapply yields_bind; eassumption| |]; reflexivity.
    + intros b Hb _. now apply Hconst.
Qed.

(** With the option set, the [read] definition of the sample [Comment] model
    holds the constant permission checker of its analysis. *)
Lemma permission_checker_under_option_on_Comment :
  exists g text,
    written (writeCommonModelDef Sample.withChecker Sample.sdk Sample.Comment Read
               (Sample.analyze Sample.Comment)) Sample.start
    = (if isPostUpdate Read then [Write ("guard: " +++ g)]
       else [Write ("guard: " +++ g); Write ("permissionChecker: " +++ text)])
    /\ (forall b, Sample.analyze Sample.Comment Read = Some b ->
                  isPostUpdate Read = false -> text = boolText b +++ ",").
Proof.
  apply (permission_checker_under_option Sample.withChecker Sample.sdk Sample.Comment
           Read (Sample.analyze Sample.Comment) Sample.start).
  reflexivity.
Defined.

(** X8. The model-level guard is a boolean constant, with no function added,
    when the kind is [update] without allow rule, when it is [postUpdate]
    without any rule, or when the policy analysis gives a constant; in every
    other case one function is added, the query guard of the allow and deny
    rules of the kind, and the guard entry names that function. *)
Theorem model_guard_constant_or_function :
  forall sdk model kind policies allows denies,
    let defaulted :=
      (isUpdate kind && isEmpty allows)
      || (isPostUpdate kind && isEmpty allows && isEmpty denies) in
    let guardFunc := queryGuard sdk model kind allows denies None false in
    (defaulted = true \/ policies kind <> None ->
     exists b,
       yields (writePolicyGuard sdk model kind policies allows denies) tt
              [Write ("guard: " +++ boolText b +++ ",")] [])
    /\ (defaulted = false /\ policies kind = None ->
        yields (writePolicyGuard sdk model kind policies allows denies) tt
               [Write ("guard: " +++ fnName guardFunc +++ ",")]
               [FunctionStatement guardFunc]).
Proof.
  intros sdk model kind policies allows denies defaulted guardFunc.
  unfold writePolicyGuard, generateQueryGuardFunction. subst defaulted.
  destruct (isUpdate kind && isEmpty allows) eqn:Hupdate; simpl.
  - split; [|intros [Habs _]; discriminate]. intros _.
    destruct (isEmpty (getPolicyExpressions sdk (OfModel model) Allow PostUpdate false));
      [exists false | exists true]; apply yields_write.
  - destruct (isPostUpdate kind && isEmpty allows && isEmpty denies) eqn:Hpost.
    + split; [|intros [Habs _]; discriminate]. intros _.
      exists true. apply yields_write.
    + split.
      * intros [Habs|Hconst]; [discriminate|].
        destruct (policies kind) as [b|]; [|congruence].
        exists b. apply yields_write.
      * intros [_ Hnone]. rewrite Hnone. fold guardFunc. summarize.
Qed.

Lemma checker_entries_forall (P : WriterOp -> Prop) (entries : list WriterOp) :
  (forall t, P (Write ("permissionChecker: " +++ t))) ->
  (forall op, In op entries -> exists t, op = Write ("permissionChecker: " +++ t)) ->
  Forall P entries.
Proof.
  intros HP Hentries. apply Forall_forall. intros op Hin.
  apply Hentries in Hin as [t ->]. apply HP.
Qed.

(** X9. The [modelLevel] object of a model always holds the five operation
    kinds, in the order [read], [create], [update], [postUpdate], [delete],
    and the definition of each starts with its guard entry.  An
    [inputChecker] entry appears under [create] only, the [preUpdateSelector]
    line under [postUpdate] only, and [postUpdate] never holds a permission
    checker. *)
Theorem model_level_layout :
  forall options sdk model st,
    exists r c u p d,
      written (writeModelLevelDefs options sdk model) st
      = [Write "modelLevel:";
         InlineBlock
           [Write "read:"; InlineBlock r; WriteLine ",";
            Write "create:"; InlineBlock c; WriteLine ",";
            Write "update:"; InlineBlock u; WriteLine ",";
            Write "postUpdate:"; InlineBlock p; WriteLine ",";
            Write "delete:"; InlineBlock d];
         WriteLine ","]
      /\ Forall guardFirst [r; c; u; p; d]
      /\ (forall text, ~ In (Write ("inputChecker: " +++ text)) (r ++ u ++ p ++ d))
      /\ (forall text, ~ In (WriteLine text) (r ++ c ++ u ++ d))
      /\ (forall text, ~ In (Write ("permissionChecker: " +++ text)) p).
Proof.
  intros options sdk model st.
  set (policies := analyzePolicies sdk model).
  destruct (writeCommonModelDef_yields options sdk model Read policies)
    as (g1 & c1 & s1 & H1 & _ & E1).
  destruct (writeCommonModelDef_yields options sdk model Create policies)
    as (g2 & c2 & s2 & H2 & _ & E2).
  destruct (writeCommonModelDef_yields options sdk model Update policies)
    as (g3 & c3 & s3 & H3 & _ & E3).
  destruct (writeCommonModelDef_postUpdate options sdk model policies)
    as (g4 & s4 & H4).
  destruct (writeCommonModelDef_yields options sdk model Delete policies)
    as (g5 & c5 & s5 & H5 & _ & E5).
  destruct (writeCreateInputChecker_entry sdk model) as (o6 & s6 & H6 & E6).
  destruct (writePostUpdatePreValueSelector_entry sdk model) as (o7 & H7 & E7).
  exists (Write ("guard: " +++ g1) :: c1),
         ((Write ("guard: " +++ g2) :: c2) ++ o6),
         (Write ("guard: " +++ g3) :: c3),
         ([Write ("guard: " +++ g4)] ++ o7),
         (Write ("guard: " +++ g5) :: c5).
  split; [|split; [|split; [|split]]].
  - eapply written_yields.
    unfold writeModelLevelDefs, writeModelReadDef, writeModelCreateDef,
      writeModelUpdateDef, writeModelPostUpdateDef, writeModelDeleteDef, inlineBlock.
    fold policies.
    eapply yields_eq.
    + repeat first
        [ exact H1 | exact H2 | exact H3 | exact H4 | exact H5 | exact H6 | exact H7
        | apply yields_write | apply yields_writeLine
        | eapply yields_nested | eapply yields_bind ].
    + reflexivity.
    + reflexivity.
  - repeat constructor; unfold guardFirst; simpl; eauto.
  - assert (Hall : Forall (fun op => forall text, op <> Write ("inputChecker: " +++ text))
                     ((Write ("guard: " +++ g1) :: c1)
                        ++ (Write ("guard: " +++ g3) :: c3)
                        ++ ([Write ("guard: " +++ g4)] ++ o7)
                        ++ (Write ("guard: " +++ g5) :: c5))).
    { assert (Hguard : forall g text,
                 Write ("guard: " +++ g) <> Write ("inputChecker: " +++ text))
        by (intros g text; simpl; discriminate).
      assert (Hchecker : forall t text,
                 Write ("permissionChecker: " +++ t) <> Write ("inputChecker: " +++ text))
        by (intros t text; simpl; discriminate).
      repeat (apply Forall_app; split); try (constructor; [now apply Hguard|]);
        try (eapply checker_entries_forall; eassumption).
      - constructor.
      - destruct E7 as [->|[t ->]]; repeat constructor. intros text. discriminate. }
    intros text Hin. eapply Forall_forall in Hin; [|exact Hall].
    now apply (Hin text).
  - assert (Hall : Forall (fun op => forall text, op <> WriteLine text)
                     ((Write ("guard: " +++ g1) :: c1)
                        ++ ((Write ("guard: " +++ g2) :: c2) ++ o6)
                        ++ (Write ("guard: " +++ g3) :: c3)
                        ++ (Write ("guard: " +++ g5) :: c5))).
    { assert (Hchecker : forall t text,
                 Write ("permissionChecker: " +++ t) <> WriteLine text)
        by (intros t text; discriminate).
      repeat (apply Forall_app; split);
        try (constructor; [intros text; discriminate|]);
        try (eapply checker_entries_forall; eassumption).
      destruct E6 as [->|[t ->]]; repeat constructor. intros text. discriminate. }
    intros text Hin. eapply Forall_forall in Hin; [|exact Hall].
    now apply (Hin text).
  - intros text [Hg|Hsel].
    + symmetry in Hg. now apply not_a_guard_entry in Hg.
    + destruct E7 as [->|[t ->]]; [destruct Hsel | destruct Hsel as [Habs|[]]; discriminate].
Qed.

(* ================================================================= *)
(** ** Properties of the generated file *)

Section PolicyObject.

Variable options : PluginOptions.
Variable sdk : Sdk.

Lemma policyEntries_yields models :
  exists body stmts,
    yields (forEach models (fun model =>
              write (lowerCaseFirst (modelName model) +++ ":") ;;
              block (writeModelLevelDefs options sdk model ;;
                     writeFieldLevelDefs sdk model) ;;
              writeLine ","))
           tt body stmts
    /\ writtenKeys body = map modelKey models
    /\ length body = 3 * length models.
Proof.
  induction models as [|model models (body & stmts & Hrest & Hkeys & Hlen)]; simpl.
  - exists [], []. split; [apply yields_ret | split; reflexivity].
  - destruct (writeModelLevelDefs_yields options sdk model) as (o1 & s1 & H1).
    destruct (writeFieldLevelDefs_yields sdk model) as (o2 & s2 & H2).
    exists ([Write (modelKey model); Block (o1 ++ o2); WriteLine ","] ++ body),
           (((s1 ++ s2) ++ []) ++ stmts).
    split; [|split].
    + eapply yields_bind; [|exact Hrest].
      unfold block.
      eapply yields_eq;
        [eapply yields_bind;
         [apply yields_write
         | eapply yields_bind;
           [eapply yields_nested; eapply yields_bind; eassumption
           | apply yields_writeLine]] | |]; reflexivity.
    + simpl. now rewrite Hkeys.
    + simpl. rewrite Hlen. lia.
Qed.

Lemma validationEntries_yields models :
  exists body,
    yields (forEach models (fun model =>
              write (lowerCaseFirst (modelName model) +++ ":") ;;
              inlineBlock
                (write ("hasValidation: "
                        +++ boolText (hasValidationAttributes sdk model))) ;;
              writeLine ","))
           tt body []
    /\ writtenKeys body = map modelKey models
    /\ length body = 3 * length models.
Proof.
  induction models as [|model models (body & Hrest & Hkeys & Hlen)]; simpl.
  - exists []. split; [apply yields_ret | split; reflexivity].
  - eexists. split; [|split].
    + eapply yields_eq; [eapply yields_bind; [|exact Hrest] | |].
      * unfold inlineBlock. summarize.
      * reflexivity.
      * reflexivity.
    + simpl. now rewrite Hkeys.
    + simpl. rewrite Hlen. lia.
Qed.

Lemma enumNames_iff model name :
  In name (enumNames sdk model) <->
  In (EnumDeclaration name) (declarations model)
  /\ isEnumReferenced sdk model name = true.
Proof.
  unfold enumNames. rewrite in_flat_map. split.
  - intros (d & Hin & Hname). destruct d as [m|e|]; try destruct Hname.
    destruct (isEnumReferenced sdk model e) eqn:Href; [|destruct Hname].
    destruct Hname as [<-|[]]. auto.
  - intros [Hin Href]. exists (EnumDeclaration name). split; [exact Hin|].
    rewrite Href. now left.
Qed.

End PolicyObject.

(** X10. The [policy] object and the [validation] object list the same
    models, in the order of [getDataModels], each under the model name with
    its first letter in lower case: both hold three writes per model, and
    their keys are the same list. *)
Theorem policy_and_validation_list_the_same_models :
  forall options sdk models st,
    exists policyBody validationBody,
      written (writePolicy options sdk models) st
      = [Write "policy:"; InlineBlock policyBody; WriteLine ","]
      /\ written (writeValidationMeta sdk models) st
         = [Write "validation:"; InlineBlock validationBody; WriteLine ","]
      /\ writtenKeys policyBody = map modelKey models
      /\ writtenKeys validationBody = map modelKey models
      /\ length policyBody = 3 * length models
      /\ length validationBody = 3 * length models.
Proof.
  intros options sdk models st.
  destruct (policyEntries_yields options sdk models)
    as (policyBody & stmts & Hpolicy & Hpkeys & Hplen).
  destruct (validationEntries_yields sdk models)
    as (validationBody & Hvalidation & Hvkeys & Hvlen).
  exists policyBody, validationBody.
  split; [|split; [|auto]].
  - eapply written_yields. unfold writePolicy, inlineBlock.
    eapply yields_eq;
      [eapply yields_bind;
       [apply yields_write
       | eapply yields_bind;
         [eapply yields_nested; exact Hpolicy | apply yields_writeLine]] | |];
      reflexivity.
  - eapply written_yields. unfold writeValidationMeta.
    unfold inlineBlock at 1.
    eapply yields_eq;
      [eapply yields_bind;
       [apply yields_write
       | eapply yields_bind;
         [eapply yields_nested; exact Hvalidation | apply yields_writeLine]] | |];
      reflexivity.
Qed.

(** X12. [writeImports] adds the import of the runtime names first, then one
    import from the Prisma client per enum, in declaration order; an enum is
    imported exactly when it is declared in the schema and referenced. *)
Theorem imports_of_referenced_enums :
  forall options sdk model output,
    yields (writeImports options sdk model output) tt []
      (ImportDeclaration
         ["type QueryContext"; "type CrudContract"; "allFieldsEqual";
          "type PolicyDef"; "type CheckerContext"; "type CheckerConstraint"]
         (RUNTIME_PACKAGE sdk)
         :: map (fun e => ImportDeclaration [e]
                            (getPrismaClientImportSpec sdk output options))
                (enumNames sdk model))
    /\ (forall name,
          In name (enumNames sdk model) <->
          In (EnumDeclaration name) (declarations model)
          /\ isEnumReferenced sdk model name = true).
Proof.
  intros options sdk model out. split; [|apply enumNames_iff].
  unfold writeImports.
  eapply yields_eq.
  - eapply yields_bind; [apply yields_addStatement|].
    apply (yields_forEach (enumNames sdk model) _ (fun _ => @nil WriterOp)
             (fun e => [ImportDeclaration [e]
                          (getPrismaClientImportSpec sdk out options)])).
    intros e _. apply yields_addStatement.
  - simpl. induction (enumNames sdk model); simpl; auto.
  - simpl. f_equal.
Qed.

(** X13. A model without any [create] rule still gets a create input checker:
    nothing stands against checking on the input, and the checker rejects
    every payload. *)
Theorem create_input_checker_without_rules :
  forall sdk model st,
    getPolicyExpressions sdk (OfModel model) Allow Create false = [] ->
    getPolicyExpressions sdk (OfModel model) Deny Create false = [] ->
    writeCreateInputChecker sdk model st
    = Ok (tt,
          {| writer := writer st
                         ++ [Write ("inputChecker: " +++ modelName model
                                    +++ "_create_input,")];
             sourceFile :=
               sourceFile st
                 ++ [FunctionStatement
                       {| fnName := modelName model +++ "_create_input";
                          fnReturnType := "boolean";
                          fnParameters := [("input", "any"); ("context", "QueryContext")];
                          fnStatements :=
                            generateNormalizedAuthRef sdk model [] []
                              ++ ["return false;"] |}] |}).
Proof.
  intros sdk model st Hallow Hdeny.
  unfold writeCreateInputChecker. rewrite Hallow, Hdeny. simpl.
  unfold bind, generateCreateInputCheckerFunction, addFunction, write, emit. simpl.
  now rewrite append_assoc.
Qed.

(** The [Tag] model declares no rule. *)
Lemma create_input_checker_without_rules_on_Tag :
  writeCreateInputChecker Sample.sdk Tag Sample.start
  = Ok (tt,
        {| writer := writer Sample.start
                       ++ [Write ("inputChecker: " +++ modelName Tag +++ "_create_input,")];
           sourceFile :=
             sourceFile Sample.start
               ++ [FunctionStatement
                     {| fnName := modelName Tag +++ "_create_input";
                        fnReturnType := "boolean";
                        fnParameters := [("input", "any"); ("context", "QueryContext")];
                        fnStatements :=
                          generateNormalizedAuthRef Sample.sdk Tag [] []
                            ++ ["return false;"] |}] |}).
Proof.
  apply (create_input_checker_without_rules Sample.sdk Tag Sample.start); reflexivity.
Defined.

(* ================================================================= *)
(** ** What is added to the source file *)

Section AddedStatements.

Variable options : PluginOptions.
Variable sdk : Sdk.

Lemma addsFunctions_of m ops stmts :
  yields m tt ops stmts -> Forall isFunctionStatement stmts -> addsFunctions m.
Proof. intros Hrun Hfns. now exists ops, stmts. Qed.

Lemma addsFunctions_bind (m k : Gen unit) :
  addsFunctions m -> addsFunctions k -> addsFunctions (m ;; k).
Proof.
  intros (o1 & s1 & H1 & F1) (o2 & s2 & H2 & F2).
  exists (o1 ++ o2), (s1 ++ s2). split.
  - eapply yields_bind; eassumption.
  - apply Forall_app. auto.
Qed.

Lemma addsFunctions_nested wrap body :
  addsFunctions body -> addsFunctions (nested wrap body).
Proof.
  intros (ops & stmts & Hrun & Hfns).
  exists [wrap ops], stmts. split; [now apply yields_nested | exact Hfns].
Qed.

Lemma addsFunctions_write text : addsFunctions (write text).
Proof. eapply addsFunctions_of; [apply yields_write | constructor]. Qed.

Lemma addsFunctions_writeLine text : addsFunctions (writeLine text).
Proof. eapply addsFunctions_of; [apply yields_writeLine | constructor]. Qed.

Lemma addsFunctions_forEach {A} (xs : list A) (body : A -> Gen unit) :
  (forall x, addsFunctions (body x)) -> addsFunctions (forEach xs body).
Proof.
  intros Hbody. induction xs as [|x xs IH]; simpl.
  - eapply addsFunctions_of; [apply yields_ret | constructor].
  - apply addsFunctions_bind; auto.
Qed.

Lemma function_statements fs : Forall isFunctionStatement (map FunctionStatement fs).
Proof. apply Forall_forall. intros s Hin. apply in_map_iff in Hin as (f & <- & _). now exists f. Qed.

Lemma addsFunctions_writePolicyGuard model kind policies allows denies :
  addsFunctions (writePolicyGuard sdk model kind policies allows denies).
Proof.
  unfold writePolicyGuard, generateQueryGuardFunction.
  destruct (isUpdate kind && isEmpty allows).
  - destruct (isEmpty _); apply addsFunctions_write.
  - destruct (isPostUpdate kind && isEmpty allows && isEmpty denies).
    + apply addsFunctions_write.
    + destruct (policies kind); [apply addsFunctions_write|].
      eapply addsFunctions_of; [summarize|].
      apply (function_statements [_]).
Qed.

Lemma addsFunctions_writePermissionChecker model kind policies allows denies :
  addsFunctions (writePermissionChecker options sdk model kind policies allows denies).
Proof.
  unfold writePermissionChecker, generatePermissionCheckerFunction.
  destruct (negb _).
  - eapply addsFunctions_of; [apply yields_ret | constructor].
  - destruct (policies kind); [apply addsFunctions_write|].
    destruct (isUpdate kind && isEmpty allows).
    + destruct (isEmpty _); apply addsFunctions_write.
    + eapply addsFunctions_of; [summarize|]. apply (function_statements [_]).
Qed.

Lemma addsFunctions_writeCommonModelDef model kind policies :
  addsFunctions (writeCommonModelDef options sdk model kind policies).
Proof.
  unfold writeCommonModelDef. apply addsFunctions_bind.
  - apply addsFunctions_writePolicyGuard.
  - destruct (negb _); [apply addsFunctions_writePermissionChecker|].
    eapply addsFunctions_of; [apply yields_ret | constructor].
Qed.

Lemma addsFunctions_writeCreateInputChecker model :
  addsFunctions (writeCreateInputChecker sdk model).
Proof.
  unfold writeCreateInputChecker, generateCreateInputCheckerFunction.
  destruct (canCheckCreateBasedOnInput _ _ _ _).
  - eapply addsFunctions_of; [summarize|]. apply (function_statements [_]).
  - eapply addsFunctions_of; [apply yields_ret | constructor].
Qed.

Lemma addsFunctions_writePostUpdatePreValueSelector model :
  addsFunctions (writePostUpdatePreValueSelector sdk model).
Proof.
  destruct (writePostUpdatePreValueSelector_yields sdk model) as (ops & Hrun).
  eapply addsFunctions_of; [exact Hrun | constructor].
Qed.

Lemma addsFunctions_writeModelLevelDefs model :
  addsFunctions (writeModelLevelDefs options sdk model).
Proof.
  unfold writeModelLevelDefs, writeModelReadDef, writeModelCreateDef,
    writeModelUpdateDef, writeModelPostUpdateDef, writeModelDeleteDef, inlineBlock.
  repeat first
    [ apply addsFunctions_write | apply addsFunctions_writeLine
    | apply addsFunctions_writeCommonModelDef
    | apply addsFunctions_writeCreateInputChecker
    | apply addsFunctions_writePostUpdatePreValueSelector
    | apply addsFunctions_nested | apply addsFunctions_bind ].
Qed.

Lemma fieldReadLoop_adds model fields vars :
  exists vars' stmts,
    yields (forOf fields (fieldReadStep sdk model) vars) vars' [] stmts
    /\ Forall isFunctionStatement stmts.
Proof.
  revert vars. induction fields as [|field fields IH]; intros vars.
  - exists vars, []. split; [apply yields_ret | constructor].
  - assert (Hstep : exists vars1 stmts1,
               yields (fieldReadStep sdk model vars field) vars1 [] stmts1
               /\ Forall isFunctionStatement stmts1).
    { destruct (hasRule_dec sdk Read field) as [Hrule|Hno].
      - destruct (fieldReadStep_rule sdk model vars field Hrule) as (checker & _ & Hrun).
        eexists; eexists. split; [exact Hrun|].
        destruct (isEmpty _);
          [apply (function_statements [_]) | apply (function_statements [_; _])].
      - exists vars, []. rewrite fieldReadStep_skip by exact Hno.
        split; [apply yields_ret | constructor]. }
    destruct Hstep as (vars1 & stmts1 & Hstep & F1).
    destruct (IH vars1) as (vars2 & stmts2 & Hloop & F2).
    exists vars2, (stmts1 ++ stmts2). split.
    + simpl. eapply yields_eq; [eapply yields_bind; eassumption| |]; reflexivity.
    + apply Forall_app. auto.
Qed.

Lemma fieldUpdateLoop_adds model fields vars :
  exists vars' stmts,
    yields (forOf fields (fieldUpdateStep sdk model) vars) vars' [] stmts
    /\ Forall isFunctionStatement stmts.
Proof.
  revert vars. induction fields as [|field fields IH]; intros vars.
  - exists vars, []. split; [apply yields_ret | constructor].
  - assert (Hstep : exists vars1 stmts1,
               yields (fieldUpdateStep sdk model vars field) vars1 [] stmts1
               /\ Forall isFunctionStatement stmts1).
    { destruct (hasRule_dec sdk Update field) as [Hrule|Hno].
      - pose proof (fieldUpdateStep_rule sdk model vars field Hrule) as Hrun.
        simpl in Hrun. eexists; eexists. split; [exact Hrun|].
        destruct (isEmpty _);
          [apply (function_statements [_]) | apply (function_statements [_; _])].
      - exists vars, []. rewrite fieldUpdateStep_skip by exact Hno.
        split; [apply yields_ret | constructor]. }
    destruct Hstep as (vars1 & stmts1 & Hstep & F1).
    destruct (IH vars1) as (vars2 & stmts2 & Hloop & F2).
    exists vars2, (stmts1 ++ stmts2). split.
    + simpl. eapply yields_eq; [eapply yields_bind; eassumption| |]; reflexivity.
    + apply Forall_app. auto.
Qed.

Lemma addsFunctions_writeFieldLevelDefs model :
  addsFunctions (writeFieldLevelDefs sdk model).
Proof.
  assert (Hread : addsFunctions (writeFieldReadDef sdk model)).
  { destruct (writeFieldReadDef_yields sdk model) as (vars & stmts & Hloop & Hrun).
    destruct (fieldReadLoop_adds model (modelFields model) noReadVars)
      as (vars1 & stmts1 & Hloop1 & Hfns).
    destruct (yields_inj _ _ _ _ _ _ _ Hloop Hloop1) as (_ & _ & <-).
    eapply addsFunctions_of; eassumption. }
  assert (Hupdate : addsFunctions (writeFieldUpdateDef sdk model)).
  { destruct (writeFieldUpdateDef_yields sdk model) as (vars & stmts & Hloop & Hrun).
    destruct (fieldUpdateLoop_adds model (modelFields model) noUpdateVars)
      as (vars1 & stmts1 & Hloop1 & Hfns).
    destruct (yields_inj _ _ _ _ _ _ _ Hloop Hloop1) as (_ & _ & <-).
    eapply addsFunctions_of; eassumption. }
  unfold writeFieldLevelDefs, inlineBlock.
  repeat first
    [ exact Hread | exact Hupdate
    | apply addsFunctions_write | apply addsFunctions_writeLine
    | apply addsFunctions_nested | apply addsFunctions_bind ].
Qed.

Lemma addsFunctions_policyInitializer models :
  addsFunctions (block (writePolicy options sdk models ;;
                        writeValidationMeta sdk models ;;
                        writeAuthSelector sdk models)).
Proof.
  unfold block. apply addsFunctions_nested.
  apply addsFunctions_bind; [|apply addsFunctions_bind].
  - unfold writePolicy, inlineBlock, block.
    repeat first
      [ apply addsFunctions_write | apply addsFunctions_writeLine
      | apply addsFunctions_writeModelLevelDefs
      | apply addsFunctions_writeFieldLevelDefs
      | apply addsFunctions_forEach; intros model
      | apply addsFunctions_nested | apply addsFunctions_bind ].
  - destruct (writeValidationMeta_yields sdk models) as (ops & Hrun).
    eapply addsFunctions_of; [exact Hrun | constructor].
  - destruct (writeAuthSelector_yields sdk models) as (ops & Hrun & _).
    eapply addsFunctions_of; [exact Hrun | constructor].
Qed.

End AddedStatements.

Lemma writeImports_statements options sdk model output :
  exists imports,
    yields (writeImports options sdk model output) tt [] imports
    /\ Forall isImportOrFunction imports.
Proof.
  unfold writeImports. eexists. split.
  - eapply yields_eq.
    + eapply yields_bind; [apply yields_addStatement|].
      apply (yields_forEach (enumNames sdk model) _ (fun _ => @nil WriterOp)
               (fun e => [ImportDeclaration [e]
                            (getPrismaClientImportSpec sdk output options)])).
      intros e _. apply yields_addStatement.
    + simpl. induction (enumNames sdk model); simpl; auto.
    + reflexivity.
  - simpl. constructor; [left; eauto|].
    apply Forall_forall. intros s Hin. apply in_flat_map in Hin as (e & _ & [<-|[]]).
    left. eauto.
Qed.

(** X14. The generated file opens with the [eslint-disable] comment and
    closes with the default export of [policy]; in between it holds one
    variable statement, the constant [policy] of type [PolicyDef] whose
    initializer is one block, and otherwise only imports and generated
    functions. *)
Theorem generated_file_statements :
  forall options sdk project model outputDir,
    exists project' before body after,
      generate options sdk project model outputDir = Ok project'
      /\ getFile (path_join sdk outputDir "policy.ts") (sourceFiles project')
         = Some (RawStatement "/* eslint-disable */"
                   :: before
                   ++ VariableStatement "const" "policy" "PolicyDef" [Block body]
                   :: after
                   ++ [RawStatement "export default policy"])
      /\ Forall isImportOrFunction (before ++ after).
Proof.
  intros options sdk project model out.
  destruct (writeImports_statements options sdk model out) as (imports & Himports & Fi).
  destruct (writeAuthSelector_yields sdk (getDataModels sdk model))
    as (authOps & Hauth & _).
  destruct (policyInitializer_yields sdk options (getDataModels sdk model) authOps Hauth)
    as (policyOps & validationOps & stmts & _ & _ & Hblock).
  destruct (addsFunctions_policyInitializer options sdk (getDataModels sdk model))
    as (ops & stmts' & Hblock' & Ff).
  destruct (yields_inj _ _ _ _ _ _ _ Hblock Hblock') as (_ & _ & <-).
  assert (Hrun : yields (writeSourceFile options sdk model out) tt []
                   (RawStatement "/* eslint-disable */"
                      :: imports
                      ++ VariableStatement "const" "policy" "PolicyDef"
                           [Block (policyOps ++ validationOps ++ authOps)]
                      :: stmts ++ [RawStatement "export default policy"])).
  { unfold writeSourceFile. eapply yields_eq.
    - eapply yields_bind; [apply yields_addStatement|].
      eapply yields_bind; [exact Himports|].
      eapply yields_bind; [|apply yields_addStatement].
      apply yields_addVariableStatement. exact Hblock.
    - reflexivity.
    - reflexivity. }
  unfold generate. rewrite Hrun. simpl.
  eexists; exists imports; eexists; exists stmts.
  split; [reflexivity|]. split.
  - simpl. now rewrite getFile_setFile.
  - apply Forall_app. split; [exact Fi|].
    eapply Forall_impl; [|exact Ff]. intros s Hs. now right.
Qed.

(* ================================================================= *)
(** ** Names and empty sections *)

Section CheckerNames.

Variable sdk : Sdk.

(** The read loop records every checker under the name built from the model
    and the field. *)
Lemma fieldReadLoop_names model fields vars :
  (forall k v, In (k, v) (fieldCheckers vars) ->
               v = modelName model +++ "$" +++ k +++ "_read") ->
  exists vars' stmts,
    yields (forOf fields (fieldReadStep sdk model) vars) vars' [] stmts
    /\ (forall k v, In (k, v) (fieldCheckers vars') ->
                    v = modelName model +++ "$" +++ k +++ "_read").
Proof.
  revert vars. induction fields as [|field fields IH]; intros vars Hnames.
  - exists vars, []. split; [apply yields_ret | exact Hnames].
  - assert (Hstep : exists vars1 stmts1,
               yields (fieldReadStep sdk model vars field) vars1 [] stmts1
               /\ (forall k v, In (k, v) (fieldCheckers vars1) ->
                               v = modelName model +++ "$" +++ k +++ "_read")).
    { destruct (hasRule_dec sdk Read field) as [Hrule|Hno].
      - destruct (fieldReadStep_rule sdk model vars field Hrule)
          as (checker & Hname & Hrun).
        eexists; eexists. split; [exact Hrun|]. simpl.
        intros k v Hin. apply recordSet_entry in Hin as [[-> ->]|Hin];
          [exact Hname | now apply Hnames].
      - exists vars, []. rewrite fieldReadStep_skip by exact Hno.
        split; [apply yields_ret | exact Hnames]. }
    destruct Hstep as (vars1 & stmts1 & Hstep & Hnames1).
    destruct (IH vars1 Hnames1) as (vars2 & stmts2 & Hloop & Hnames2).
    exists vars2, (stmts1 ++ stmts2). split; [|exact Hnames2].
    simpl. eapply yields_eq; [eapply yields_bind; eassumption| |]; reflexivity.
Qed.

End CheckerNames.

(** X15. Every entry of the field-level [read] checker record reads
    [field: Model$field_read,]: the checker of a field is recorded under the
    name made of the model name, [$], the field name and [_read]. *)
Theorem field_read_checker_names :
  forall sdk model,
    exists vars stmts,
      yields (writeFieldReadDef sdk model) tt (fieldReadOps sdk vars) stmts
      /\ entryOps (fieldCheckers vars)
         = map (fun k => Write (k +++ ": "
                                +++ (modelName model +++ "$" +++ k +++ "_read")
                                +++ ","))
               (recordKeys (fieldCheckers vars)).
Proof.
  intros sdk model.
  destruct (writeFieldReadDef_yields sdk model) as (vars & stmts & Hloop & Hrun).
  destruct (fieldReadLoop_names sdk model (modelFields model) noReadVars)
    as (vars1 & stmts1 & Hloop1 & Hnames); [intros k v []|].
  destruct (yields_inj _ _ _ _ _ _ _ Hloop Hloop1) as (<- & _ & _).
  exists vars, stmts. split; [exact Hrun|].
  unfold entryOps, recordKeys. rewrite map_map.
  apply map_ext_in. intros [k v] Hin. simpl.
  now rewrite (Hnames k v Hin).
Qed.

(** X16. A model none of whose fields carries a field-level read or update
    rule gets an empty [fieldLevel] object, and nothing is added to the
    source file. *)
Theorem field_level_empty_without_rules :
  forall sdk model st,
    ~ Exists (hasRule sdk Read) (modelFields model) ->
    ~ Exists (hasRule sdk Update) (modelFields model) ->
    writeFieldLevelDefs sdk model st
    = Ok (tt, {| writer := writer st
                             ++ [Write "fieldLevel:"; InlineBlock []; WriteLine ","];
                 sourceFile := sourceFile st |}).
Proof.
  intros sdk model st Hread Hupdate.
  destruct (writeFieldReadDef_yields sdk model) as (v1 & s1 & Hloop1 & Hrun1).
  destruct (read_records_iff sdk model v1 s1 Hloop1) as (_ & _ & Hnone1).
  destruct (Hnone1 Hread) as [-> ->].
  destruct (writeFieldUpdateDef_yields sdk model) as (v2 & s2 & Hloop2 & Hrun2).
  destruct (update_records_iff sdk model v2 s2 Hloop2) as (_ & _ & Hnone2).
  destruct (Hnone2 Hupdate) as [-> ->].
  assert (Hrun : yields (writeFieldLevelDefs sdk model) tt
                   [Write "fieldLevel:"; InlineBlock []; WriteLine ","] []).
  { unfold writeFieldLevelDefs, inlineBlock.
    eapply yields_eq;
      [eapply yields_bind;
       [apply yields_write
       | eapply yields_bind;
         [eapply yields_nested; eapply yields_bind; [exact Hrun1 | exact Hrun2]
         | apply yields_writeLine]] | |]; reflexivity. }
  rewrite Hrun. unfold extend. now rewrite app_nil_r.
Qed.

(** No field of the sample [Post] model carries a field-level rule. *)
Lemma field_level_empty_on_Post :
  writeFieldLevelDefs Sample.sdk Sample.Post Sample.start
  = Ok (tt, {| writer := writer Sample.start
                           ++ [Write "fieldLevel:"; InlineBlock []; WriteLine ","];
               sourceFile := sourceFile Sample.start |}).
Proof.
  apply (field_level_empty_without_rules Sample.sdk Sample.Post Sample.start).
  - intros Hex. apply Exists_exists in Hex as (f & Hin & [H|H]);
      simpl in Hin; repeat destruct Hin as [<-|Hin]; try destruct Hin;
      now apply H.
  - intros Hex. apply Exists_exists in Hex as (f & Hin & [H|H]);
      simpl in Hin; repeat destruct Hin as [<-|Hin]; try destruct Hin;
      now apply H.
Defined.
